(** * CFScanner: the scan loop of [python/cfscanner.py]

    A shallow embedding of the [__main__] block of the scanner: the result
    file and its header, the [rich] progress display with its per-subnet
    tasks, the [multiprocessing] pool iterator and the [while True] loop
    with its four exception handlers.

    Python objects that the script mutates in place (the [Progress]
    object, the two dictionaries, the result file) are the fields of one
    [state]; a statement is a function from a state to a result-or-exception
    together with the state it leaves behind, so that whatever a statement
    did before it raised is still there when the handler runs. *)

From Stdlib Require Import QArith Qabs.
From stdpp Require Import base gmap strings list pretty.

Local Open Scope string_scope.
Local Open Scope list_scope.
Local Open Scope nat_scope.

(** ** Python values and exceptions *)

(** Numbers measured by the speed test.  Python has floats here; the
    embedding keeps exact rationals, and leaves their printing to a
    parameter ([str_num] below). *)
Abbreviation number := Q (only parsing).

(** The literal [-1] that the script (and the speed test) puts where a
    figure was not measured. *)
Definition NOT_MEASURED : number := (-1)%Q.

(** A cell of a record line before [str] is mapped over it. *)
Inductive pyval :=
| PyStr (s : string)
| PyNum (q : number).

(** The exceptions the loop tells apart.  [KeyError], [StatisticsError]
    and [OtherException] are subclasses of [Exception]; the first three
    are caught by handlers of their own. *)
Inductive pyexn :=
| StartProxyServiceError (msg : string)
| StopIteration
| KeyboardInterrupt
| KeyError (key : string)
| StatisticsError
| OtherException (name : string).

Inductive outcome (A : Type) :=
| Ok (a : A)
| Raise (e : pyexn).
Arguments Ok {A} a.
Arguments Raise {A} e.

(** ** The [rich] progress display *)

(** The two descriptions the script formats:
    [f"all subnets - {n_total_ips} ips"] and
    [f"{res.cidr} - {n_ips_cidr} ips"]. *)
Inductive description :=
| AllSubnets (n_total_ips : nat)
| Subnet (cidr : string) (n_ips_cidr : nat).

Definition description_str (d : description) : string :=
  match d with
  | AllSubnets n => "all subnets - " +:+ pretty n +:+ " ips"
  | Subnet cidr n => cidr +:+ " - " +:+ pretty n +:+ " ips"
  end.

Record Task := mkTask {
  task_description : description;
  task_total : nat;
  task_completed : nat;
  task_stopped : bool
}.

(** What the terminal and the log file were asked to show, newest first. *)
Inductive effect :=
| TaskAdded (id : nat) (d : description)
| TaskAdvanced (id : nat)
| TaskStopped (id : nat)
| TaskRemoved (id : nat) (d : description)
| ProgressStopped
| ProgressLog (msg : string)
| ConsoleLog (msg : string)
| ConsolePrintException (e : pyexn)
| LoggingException (e : pyexn)
| Rprint (msg : string)
| PoolTerminated.

(** [Progress]: the live tasks by id, the next free id, and whether the
    live display is running. *)
Record Progress := mkProgress {
  _tasks : gmap nat Task;
  _task_index : nat;
  live_started : bool
}.

(** ** The state of the script *)

Record state := mkState {
  progress : Progress;
  pool_terminated : bool;
  cidr_scanned_ips : gmap string nat;
  cidr_prog_tasks : gmap string nat;
  outfile : list string;
  trace : list effect
}.

Definition set_progress (p : Progress) (s : state) : state :=
  mkState p (pool_terminated s) (cidr_scanned_ips s) (cidr_prog_tasks s)
          (outfile s) (trace s).

Definition set_cidr_scanned_ips (m : gmap string nat) (s : state) : state :=
  mkState (progress s) (pool_terminated s) m (cidr_prog_tasks s)
          (outfile s) (trace s).

Definition set_cidr_prog_tasks (m : gmap string nat) (s : state) : state :=
  mkState (progress s) (pool_terminated s) (cidr_scanned_ips s) m
          (outfile s) (trace s).

Definition emit (e : effect) (s : state) : state :=
  mkState (progress s) (pool_terminated s) (cidr_scanned_ips s)
          (cidr_prog_tasks s) (outfile s) (e :: trace s).

(** ** Statements: state passing with exceptions *)

Definition M (A : Type) : Type := state -> outcome A * state.

Definition ret {A} (a : A) : M A := fun s => (Ok a, s).

Definition raise {A} (e : pyexn) : M A := fun s => (Raise e, s).

Definition bind {A B} (m : M A) (k : A -> M B) : M B :=
  fun s =>
    match m s with
    | (Ok a, s') => k a s'
    | (Raise e, s') => (Raise e, s')
    end.

Notation "'let*' x := m 'in' k" := (bind m (fun x => k))
  (at level 10, x name, m at level 100, k at level 200,
   format "'[v' 'let*'  x  :=  m  'in' '/' k ']'").

Definition modify (f : state -> state) : M unit := fun s => (Ok tt, f s).

Definition gets {A} (f : state -> A) : M A := fun s => (Ok (f s), s).

(** [d[key]] on a dictionary raises [KeyError] when the key is missing. *)
Definition subscript {V} (d : gmap string V) (key : string) : M V :=
  match d !! key with
  | Some v => ret v
  | None => raise (KeyError key)
  end.

(** *** Methods of [Progress] *)

(** A change of [self._tasks]. *)
Definition with_tasks (f : gmap nat Task -> gmap nat Task) (s : state) : state :=
  let p := progress s in
  set_progress (mkProgress (f (_tasks p)) (_task_index p) (live_started p)) s.

(** [self._tasks[task_id]]: a missing id is a [KeyError]. *)
Definition get_task (task_id : nat) : M Task :=
  fun s =>
    match _tasks (progress s) !! task_id with
    | Some t => (Ok t, s)
    | None => (Raise (KeyError (pretty task_id)), s)
    end.

(** [progress.add_task(description, total=total)]: the task gets the next
    index, which is returned. *)
Definition add_task (d : description) (total : nat) : M nat :=
  fun s =>
    let p := progress s in
    let id := _task_index p in
    (Ok id,
     emit (TaskAdded id d)
       (set_progress
          (mkProgress (<[id := mkTask d total 0 false]> (_tasks p))
                      (S id) (live_started p)) s)).

(** [progress.update(task_id, advance=1)]. *)
Definition advanced (t : Task) : Task :=
  mkTask (task_description t) (task_total t) (task_completed t + 1)
         (task_stopped t).

Definition update_advance (task_id : nat) : M unit :=
  let* t := get_task task_id in
  modify (fun s =>
    emit (TaskAdvanced task_id) (with_tasks <[task_id := advanced t]> s)).

(** [progress.stop_task(task_id)]. *)
Definition stopped (t : Task) : Task :=
  mkTask (task_description t) (task_total t) (task_completed t) true.

Definition stop_task (task_id : nat) : M unit :=
  let* t := get_task task_id in
  modify (fun s =>
    emit (TaskStopped task_id) (with_tasks <[task_id := stopped t]> s)).

(** [progress.remove_task(task_id)]: [del self._tasks[task_id]]. *)
Definition remove_task (task_id : nat) : M unit :=
  let* t := get_task task_id in
  modify (fun s =>
    emit (TaskRemoved task_id (task_description t))
      (with_tasks (delete task_id) s)).

(** [progress.stop()]: the live display ends; the tasks stay as they are. *)
Definition progress_stop : M unit :=
  modify (fun s =>
    let p := progress s in
    emit ProgressStopped
      (set_progress (mkProgress (_tasks p) (_task_index p) false) s)).

(** [progress.task_ids]: a fresh list of the ids of the live tasks. *)
Definition task_ids (p : Progress) : list nat :=
  (map_to_list (_tasks p)).*1.

(** [pool.terminate()]. *)
Definition pool_terminate : M unit :=
  modify (fun s =>
    emit PoolTerminated
      (mkState (progress s) true (cidr_scanned_ips s) (cidr_prog_tasks s)
               (outfile s) (trace s))).

(** [outfile.write(line)] on the file opened for appending. *)
Definition outfile_write (line : string) : M unit :=
  modify (fun s =>
    mkState (progress s) (pool_terminated s) (cidr_scanned_ips s)
            (cidr_prog_tasks s) (outfile s ++ [line]) (trace s)).

(** [rprint(msg)], [progress.log(msg)], [console.log(msg)],
    [console.print_exception()] and [logging.exception(e)] only show
    something.  That [rich] can refuse the markup of a message and raise
    is not modelled. *)
Definition rprint (msg : string) : M unit := modify (emit (Rprint msg)).
Definition progress_log (msg : string) : M unit := modify (emit (ProgressLog msg)).
Definition console_log (msg : string) : M unit := modify (emit (ConsoleLog msg)).
Definition console_print_exception (e : pyexn) : M unit :=
  modify (emit (ConsolePrintException e)).
Definition logging_exception (e : pyexn) : M unit :=
  modify (emit (LoggingException e)).

(** [for x in l: body(x)]. *)
Fixpoint for_each {A} (l : list A) (body : A -> M unit) : M unit :=
  match l with
  | [] => ret tt
  | x :: l' => let* _ := body x in for_each l' body
  end.

(** ** The collaborators' data *)

(** [test_config]: the fields the script reads. *)
Record TestConfig := mkTestConfig {
  n_tries : nat;
  do_upload_test : bool;
  sample_size : nat
}.

(** The object [test_ip] returns, called [res] in the loop.
    [res.result] is a dictionary of dictionaries of lists:
    [res.result["download"]["speed"]] and so on. *)
Record ProbeResult := mkProbeResult {
  ip : string;
  cidr : string;
  is_ok : bool;
  message : string;
  result : gmap string (gmap string (list number))
}.

(** [res.result[direction][key]]. *)
Definition result_at (res : ProbeResult) (direction key : string)
  : M (list number) :=
  let* d := subscript (result res) direction in
  subscript d key.

(** ** Statistics *)

(** [statistics.mean(data)]: raises [StatisticsError] on empty data. *)
Definition statistics_mean (data : list number) : M number :=
  match data with
  | [] => raise StatisticsError
  | _ => ret (foldr Qplus 0%Q data / inject_Z (Z.of_nat (length data)))%Q
  end.

Fixpoint abs_differences (l : list number) : list number :=
  match l with
  | [] => []
  | a :: tl =>
      match tl with
      | [] => []
      | b :: _ => Qabs (b - a)%Q :: abs_differences tl
      end
  end.

(** Modelled from the spec: [speedtest.tools.mean_jitter] is not among
    the sources.  The spec has it as the mean of the absolute differences
    between consecutive latency samples, and as the "not applicable"
    sentinel when there are fewer than two samples. *)
Definition mean_jitter (latencies : list number) : M number :=
  if length latencies <? 2 then ret NOT_MEASURED
  else statistics_mean (abs_differences latencies).

(** ** The result file *)

Definition newline : string := String (Ascii.ascii_of_nat 10) EmptyString.

(** [",".join(parts)]. *)
Definition join (sep : string) (parts : list string) : string :=
  String.concat sep parts.

(** [[f"{name}_{i+1}" for i in range(n)]]. *)
Definition numbered (name : string) (n : nat) : list string :=
  (fun i => name +:+ "_" +:+ pretty (i + 1)) <$> seq 0 n.

(** The column titles, as the script builds them from [args.n_tries]. *)
Definition titles (n : nat) : list string :=
  ["ip"; "avg_download_speed"; "avg_upload_speed";
   "avg_download_latency"; "avg_upload_latency";
   "avg_download_jitter"; "avg_upload_jitter"]
  ++ numbered "download_speed" n
  ++ numbered "upload_speed" n
  ++ numbered "download_latency" n
  ++ numbered "upload_latency" n.

Definition header_line (n : nat) : string := join "," (titles n) +:+ newline.

Section Scanner.

(** [str] on a number: the printing of Python's floats is not modelled. *)
Variable str_num : number -> string.

(** [get_num_ips_in_cidr(cidr, sample_size=...)] of the [subnets] module,
    which is not among the sources. *)
Variable get_num_ips_in_cidr : string -> nat -> nat.

Variable test_config : TestConfig.

Definition str (v : pyval) : string :=
  match v with
  | PyStr s => s
  | PyNum q => str_num q
  end.

(** [",".join(map(str, res_parts)) + "\n"]. *)
Definition record_line (res_parts : list pyval) : string :=
  join "," (str <$> res_parts) +:+ newline.

(** [f(res.result["upload"][key]) if test_config.do_upload_test else -1]. *)
Definition upload_figure (f : list number -> M number)
    (res : ProbeResult) (key : string) : M number :=
  if do_upload_test test_config then
    let* l := result_at res "upload" key in f l
  else ret NOT_MEASURED.

(** The cells of the line of a successful result, and the exceptions
    that computing them can raise. *)
Definition res_parts_of (res : ProbeResult)
    (mean_down_speed mean_up_speed mean_down_latency mean_up_latency
       down_mean_jitter up_mean_jitter : number) : M (list pyval) :=
  let res_parts :=
    [PyStr (ip res); PyNum mean_down_speed; PyNum mean_up_speed;
     PyNum mean_down_latency; PyNum mean_up_latency;
     PyNum down_mean_jitter; PyNum up_mean_jitter] in
  let* down_speed := result_at res "download" "speed" in
  let res_parts := res_parts ++ (PyNum <$> down_speed) in
  let* up_speed := result_at res "upload" "speed" in
  let res_parts := res_parts ++ (PyNum <$> up_speed) in
  let* down_latency := result_at res "download" "latency" in
  let res_parts := res_parts ++ (PyNum <$> down_latency) in
  let* up_latency := result_at res "upload" "latency" in
  let res_parts := res_parts ++ (PyNum <$> up_latency) in
  ret res_parts.

(** The [if res.is_ok:] branch. *)
Definition write_result (res : ProbeResult) : M unit :=
  let* down_latency := result_at res "download" "latency" in
  let* down_mean_jitter := mean_jitter down_latency in
  let* up_mean_jitter := upload_figure mean_jitter res "latency" in
  let* down_speed := result_at res "download" "speed" in
  let* mean_down_speed := statistics_mean down_speed in
  let* mean_up_speed := upload_figure statistics_mean res "speed" in
  let* down_latency := result_at res "download" "latency" in
  let* mean_down_latency := statistics_mean down_latency in
  let* mean_up_latency := upload_figure statistics_mean res "latency" in
  let* _ := rprint (message res) in
  let* res_parts :=
    res_parts_of res mean_down_speed mean_up_speed mean_down_latency
      mean_up_latency down_mean_jitter up_mean_jitter in
  outfile_write (record_line res_parts).

(** ** The loop *)

(** The id of the task for all subnets: the first one a new [Progress]
    hands out (see [start_scan]). *)
Definition all_ips_task : nat := 0.

(** [next(iterator)]: the pool's iterator hands over what the worker
    returned for the next candidate, or raises what the worker raised;
    it raises [StopIteration] when there is no candidate left.  An
    interrupt from the keyboard while the loop waits here is a
    [Raise KeyboardInterrupt]. *)
Definition next (item : option (outcome ProbeResult)) : M ProbeResult :=
  match item with
  | Some (Ok res) => ret res
  | Some (Raise e) => raise e
  | None => raise StopIteration
  end.

Definition num_ips (c : string) : nat :=
  get_num_ips_in_cidr c (sample_size test_config).

(** The statements of the [try] block after [res = next(iterator)], in
    the three groups in which the source sets them apart.

    First the progress display: the task of all subnets advances, the
    task of the subnet is added if nothing of the subnet has been counted
    yet, and advances. *)
Definition show_progress (res : ProbeResult) : M unit :=
  let* _ := update_advance all_ips_task in
  let* scanned := gets cidr_scanned_ips in
  let* n := subscript scanned (cidr res) in
  let* _ :=
    (if n =? 0 then
       let n_ips_cidr := num_ips (cidr res) in
       let* task_id := add_task (Subnet (cidr res) n_ips_cidr) n_ips_cidr in
       modify (fun s =>
         set_cidr_prog_tasks (<[cidr res := task_id]> (cidr_prog_tasks s)) s)
     else ret tt) in
  let* prog_tasks := gets cidr_prog_tasks in
  let* task_id := subscript prog_tasks (cidr res) in
  update_advance task_id.

(** Then the result: a line in the file for a successful one, the
    message alone for the others. *)
Definition report (res : ProbeResult) : M unit :=
  if is_ok res then write_result res else rprint (message res).

(** Last the counter of the subnet, and the end of its task when the
    counter has reached the number of addresses of the subnet. *)
Definition count_scanned (res : ProbeResult) : M unit :=
  let* scanned := gets cidr_scanned_ips in
  let* n := subscript scanned (cidr res) in
  let* _ := modify (fun s =>
    set_cidr_scanned_ips (<[cidr res := n + 1]> (cidr_scanned_ips s)) s) in
  let* scanned := gets cidr_scanned_ips in
  let* n := subscript scanned (cidr res) in
  if n =? num_ips (cidr res) then
    let* prog_tasks := gets cidr_prog_tasks in
    let* task_id := subscript prog_tasks (cidr res) in
    remove_task task_id
  else ret tt.

Definition process (res : ProbeResult) : M unit :=
  let* _ := show_progress res in
  let* _ := report res in
  count_scanned res.

Definition try_block (item : option (outcome ProbeResult)) : M unit :=
  let* res := next item in
  process res.

(** How an iteration leaves the loop: [Running] goes round again, the
    other three are the [break]s. *)
Inductive phase := Running | Completed | Aborted | Cancelled.

(** [for task_id in progress.task_ids: progress.stop_task(task_id);
    progress.remove_task(task_id)].  The loop over [progress.tasks] in
    the [StopIteration] handler does the same with [task.id], the key
    under which the task is kept. *)
Definition stop_and_remove_tasks : M unit :=
  let* p := gets progress in
  for_each (task_ids p) (fun task_id =>
    let* _ := stop_task task_id in
    remove_task task_id).

(** The [except] clauses, tried in the order of the source. *)
Definition handler (e : pyexn) : M phase :=
  match e with
  | StartProxyServiceError msg =>
      let* _ := progress_stop in
      let* _ := console_log ("[red]" +:+ msg +:+ "[/red]") in
      let* _ := pool_terminate in
      let* _ := logging_exception e in
      ret Aborted
  | StopIteration =>
      let* _ := stop_and_remove_tasks in
      let* _ := progress_stop in
      let* _ := progress_log "Finished scanning ips." in
      ret Completed
  | KeyboardInterrupt =>
      let* _ := stop_and_remove_tasks in
      let* _ := progress_stop in
      let* _ := progress_log "[yellow]KeyboardInterrupt detected (scan phase)[/yellow]" in
      let* _ := pool_terminate in
      ret Cancelled
  | KeyError _ | StatisticsError | OtherException _ =>
      let* _ := progress_log "[red]Unknown error![/red]" in
      let* _ := console_print_exception e in
      let* _ := logging_exception e in
      ret Running
  end.

(** One round of [while True]: the [try] block, and the handler of what
    it raised.  An exception raised by a handler leaves the loop. *)
Definition iteration (item : option (outcome ProbeResult)) : M phase :=
  fun s =>
    match try_block item s with
    | (Ok _, s') => (Ok Running, s')
    | (Raise e, s') => handler e s'
    end.

(** The loop over what the iterator has to give; after the last item
    [next] raises [StopIteration]. *)
Fixpoint scan_loop (items : list (outcome ProbeResult)) : M phase :=
  fun s =>
    match items with
    | [] => iteration None s
    | item :: items' =>
        match iteration (Some item) s with
        | (Ok Running, s') => scan_loop items' s'
        | r => r
        end
    end.

(** The loop for as long as it keeps running: the state after the given
    items, if none of them made the loop [break]. *)
Fixpoint running_after (items : list (outcome ProbeResult)) (s : state)
  : option state :=
  match items with
  | [] => Some s
  | item :: items' =>
      match iteration (Some item) s with
      | (Ok Running, s') => running_after items' s'
      | _ => None
      end
  end.

(** ** The candidates *)

(** [cidr_to_ip_list(cidr, sample_size=...)] of the [subnets] module,
    which is not among the sources. *)
Variable cidr_to_ip_list : string -> nat -> list string.

(** [[(ip, cidr) for cidr, ip_list in zip(cidr_list, cidr_ip_lists)
    for ip in ip_list]]. *)
Definition big_ip_list (cidr_list : list string) : list (string * string) :=
  let cidr_ip_lists :=
    (fun c => cidr_to_ip_list c (sample_size test_config)) <$> cidr_list in
  mbind (fun '(c, ip_list) => (fun ip_ => (ip_, c)) <$> ip_list)
        (zip cidr_list cidr_ip_lists).

(** [pool.imap(partial(test_ip, ...), big_ip_list)]: the job of a
    candidate is the call of [test_ip] on it, which returns a result or
    raises; these are the results of the jobs in the order of
    submission. *)
Definition imap_results (test_ip : string * string -> outcome ProbeResult)
    (candidates : list (string * string)) : list (outcome ProbeResult) :=
  test_ip <$> candidates.

(** ** Before the loop *)

(** [cidr_scanned_ips = {cidr: 0 for cidr in cidr_list}]. *)
Definition zero_counters (cidr_list : list string) : gmap string nat :=
  list_to_map ((fun c => (c, 0)) <$> cidr_list).

(** [n_total_ips]. *)
Definition n_total_ips_of (cidr_list : list string) : nat :=
  sum_list (num_ips <$> cidr_list).

(** The state in which the loop starts: the result file holds the header,
    [Progress()] has been entered and has the task for all subnets. *)
Definition start_scan (header : string) (cidr_list : list string) : state :=
  let n_total_ips := n_total_ips_of cidr_list in
  let s0 := mkState (mkProgress ∅ 0 true) false (zero_counters cidr_list) ∅
                    [header] [] in
  (add_task (AllSubnets n_total_ips) n_total_ips s0).2.

(** ** Reading a state *)

(** The counter of the task of all subnets, while the task exists. *)
Definition overall (s : state) : option nat :=
  task_completed <$> _tasks (progress s) !! all_ips_task.

(** [sum(cidr_scanned_ips.values())]. *)
Definition sum_scanned (s : state) : nat :=
  map_fold (fun (_ : string) (n acc : nat) => n + acc) 0 (cidr_scanned_ips s).

Fixpoint count_effects (f : effect -> bool) (tr : list effect) : nat :=
  match tr with
  | [] => 0
  | e :: tr' => (if f e then 1 else 0) + count_effects f tr'
  end.

Definition is_creation (c : string) (e : effect) : bool :=
  match e with
  | TaskAdded _ (Subnet c' _) => bool_decide (c' = c)
  | _ => false
  end.

Definition is_removal (c : string) (e : effect) : bool :=
  match e with
  | TaskRemoved _ (Subnet c' _) => bool_decide (c' = c)
  | _ => false
  end.

Definition is_unknown_error (e : effect) : bool :=
  match e with
  | ConsolePrintException _ => true
  | _ => false
  end.

(** How often a task was added for, and removed for, a subnet, and how
    often the last handler reported an unknown error. *)
Definition creations (c : string) (s : state) : nat :=
  count_effects (is_creation c) (trace s).
Definition removals (c : string) (s : state) : nat :=
  count_effects (is_removal c) (trace s).
Definition unknown_errors (s : state) : nat :=
  count_effects is_unknown_error (trace s).

(** No task is added for the subnet once one has been removed for it
    (the trace has the newest effect first). *)
Fixpoint never_recreated (c : string) (tr : list effect) : Prop :=
  match tr with
  | [] => True
  | e :: tr' =>
      (is_creation c e = true -> count_effects (is_removal c) tr' = 0)
      /\ never_recreated c tr'
  end.

(** The exceptions that the last [except] clause takes. *)
Definition unexpected (e : pyexn) : bool :=
  match e with
  | KeyError _ | StatisticsError | OtherException _ => true
  | _ => false
  end.

(** The items of a scan that nothing stops: results and unexpected
    exceptions only. *)
Definition unstopped (item : outcome ProbeResult) : bool :=
  match item with
  | Ok _ => true
  | Raise e => unexpected e
  end.

(** A statement that reads the result and nothing else: it leaves the
    state alone, and all it can raise is an unexpected exception. *)
Definition pure {A} (m : M A) : Prop :=
  exists x : outcome A,
    (forall s, m s = (x, s))
    /\ match x with Raise e => unexpected e = true | Ok _ => True end.

(** ** What the collaborator hands over *)

(** Modelled from the spec: [speedtest.conduct.test_ip] is not among the
    sources.  The spec has a trial set map a direction to its sequences
    of samples, one sample per trial, [n_tries] of them; the upload
    sequences may be absent when upload testing is disabled.  So every
    sequence that is there has [n_tries] samples; what the samples are
    is left open. *)
Definition trial_set_of_probe (res : ProbeResult) : Prop :=
  forall direction d key l,
    result res !! direction = Some d -> d !! key = Some l ->
    length l = n_tries test_config.

(** The titles of the columns that report upload. *)
Definition is_upload_title (title : string) : bool :=
  String.prefix "upload_" title || String.prefix "avg_upload_" title.

(** ** What holds of every state of the loop *)

(** What the handlers leave alone when they clear the display. *)
Definition same_results (s s' : state) : Prop :=
  outfile s' = outfile s
  /\ cidr_scanned_ips s' = cidr_scanned_ips s
  /\ cidr_prog_tasks s' = cidr_prog_tasks s.

(** The task of all subnets is on display, every id in use is below the
    next free one, and the task kept for a subnet is not the task of all
    subnets and, while on display, carries the subnet's description. *)
Record well_formed (s : state) : Prop := mkWellFormed {
  wf_all_ips :
    exists t n, _tasks (progress s) !! all_ips_task = Some t
                /\ task_description t = AllSubnets n;
  wf_fresh :
    forall id, is_Some (_tasks (progress s) !! id) ->
               id < _task_index (progress s);
  wf_prog_tasks :
    forall c id, cidr_prog_tasks s !! c = Some id ->
                 all_ips_task < id < _task_index (progress s);
  wf_description :
    forall c id t, cidr_prog_tasks s !! c = Some id ->
                   _tasks (progress s) !! id = Some t ->
                   task_description t = Subnet c (num_ips c)
}.

(** The life of the task of a subnet [c], as the counter of the subnet
    tells it: the counter is at most the number of addresses of the
    subnet; the loop has removed a task of the subnet once if the counter
    has reached that number and never otherwise; the task the loop keeps
    for the subnet is then off the display; and no task was added for the
    subnet after one had been removed. *)
Definition block_inv (c : string) (s : state) : Prop :=
  never_recreated c (trace s)
  /\ forall n,
       cidr_scanned_ips s !! c = Some n ->
       n <= num_ips c
       /\ removals c s = (if decide (n = num_ips c) then 1 else 0)
       /\ (n = num_ips c ->
           exists id, cidr_prog_tasks s !! c = Some id
                      /\ _tasks (progress s) !! id = None).

(** ** Counting the items of a scan *)

(** The items that are results, and those that are successful results. *)
Definition is_result (item : outcome ProbeResult) : bool :=
  match item with
  | Ok _ => true
  | Raise _ => false
  end.

Definition is_success (item : outcome ProbeResult) : bool :=
  match item with
  | Ok res => is_ok res
  | Raise _ => false
  end.

Definition count_items (f : outcome ProbeResult -> bool)
    (items : list (outcome ProbeResult)) : nat :=
  sum_list ((fun item => if f item then 1 else 0) <$> items).

(** The total of the task of all subnets, while the task exists. *)
Definition overall_total (s : state) : option nat :=
  task_total <$> _tasks (progress s) !! all_ips_task.


(** When the counter of a subnet is neither 0 nor the number of its
    addresses, the task kept for the subnet is on display. *)
Definition tasks_on_display (s : state) : Prop :=
  forall c n,
    cidr_scanned_ips s !! c = Some n ->
    n <> 0 -> n <> num_ips c ->
    exists id, cidr_prog_tasks s !! c = Some id
               /\ is_Some (_tasks (progress s) !! id).

(** ** After the loop *)

(** The script ends with the loop.  Leaving the two [with] blocks
    terminates the pool and stops the display; a loop left by [break]
    then ends the process with status 0, an exception that left the loop
    ends it with status 1. *)
Definition leave_with_blocks : M unit :=
  let* _ := pool_terminate in
  progress_stop.

Definition exit_status (r : outcome phase) : nat :=
  match r with
  | Ok _ => 0
  | Raise _ => 1
  end.

End Scanner.

(** ** The script from its first line *)

(** What the steps before the loop meet that the script puts in a
    [try]: each of them either goes through or raises, and a step that
    raises ends the script with [exit(1)].  What stands outside every
    [try] before the loop ([parse_args], the counting of the addresses,
    [Progress()] and the pool) is taken to go through. *)
Record Setup := mkSetup {
  args_n_tries : nat;
  args_no_vpn : bool;
  create_config_dir : outcome unit;
  create_result_dir : outcome unit;
  open_result_file : outcome unit;
  read_cidrs : outcome (list string);
  TestConfig_from_args : outcome TestConfig
}.

(** The exit status of the script and, when the scan started, the state
    it leaves. *)
Definition main (str_num : number -> string)
    (get_num_ips_in_cidr : string -> nat -> nat)
    (setup : Setup) (items : list (outcome ProbeResult))
  : nat * option state :=
  match (if args_no_vpn setup then Ok tt else create_config_dir setup) with
  | Raise _ => (1, None)
  | Ok _ =>
  match create_result_dir setup with
  | Raise _ => (1, None)
  | Ok _ =>
  match open_result_file setup with
  | Raise _ => (1, None)
  | Ok _ =>
  match read_cidrs setup with
  | Raise _ => (1, None)
  | Ok cidr_list =>
  match TestConfig_from_args setup with
  | Raise _ => (1, None)
  | Ok test_config =>
      let s0 := start_scan get_num_ips_in_cidr test_config
                  (header_line (args_n_tries setup)) cidr_list in
      let '(r, s) :=
        scan_loop str_num get_num_ips_in_cidr test_config items s0 in
      (exit_status r, Some (leave_with_blocks s).2)
  end end end end end.

(** The steps before the loop all go through, and give the list of
    subnets and the test configuration. *)
Definition setup_passes (setup : Setup) (cidr_list : list string)
    (test_config : TestConfig) : Prop :=
  (if args_no_vpn setup then Ok tt else create_config_dir setup) = Ok tt
  /\ create_result_dir setup = Ok tt
  /\ open_result_file setup = Ok tt
  /\ read_cidrs setup = Ok cidr_list
  /\ TestConfig_from_args setup = Ok test_config.

(** ** The iterator of the pool *)

(** [multiprocessing.pool.IMapIterator], which [pool.imap] returns: the
    results of the jobs arrive in any order, each with the index of its
    job, and are handed over in the order of the indices. *)
Module IMapIterator.

Section Iterator.
Context {A : Type}.

Record t := mk {
  _items : list A;
  _index : nat;
  _length : option nat;
  _unsorted : gmap nat A
}.

Definition new : t := mk [] 0 None ∅.

(** [while self._index in self._unsorted: ...]; every round takes one
    entry out of [_unsorted], so as many rounds as it has entries are
    enough. *)
Fixpoint flush (rounds : nat) (it : t) : t :=
  match rounds with
  | 0 => it
  | S rounds' =>
      match _unsorted it !! _index it with
      | Some obj =>
          flush rounds'
            (mk (_items it ++ [obj]) (S (_index it)) (_length it)
                (delete (_index it) (_unsorted it)))
      | None => it
      end
  end.

(** [_set(i, obj)], called when the result of job [i] has arrived. *)
Definition _set (i : nat) (obj : A) (it : t) : t :=
  if decide (_index it = i) then
    flush (size (_unsorted it))
      (mk (_items it ++ [obj]) (S (_index it)) (_length it) (_unsorted it))
  else
    mk (_items it) (_index it) (_length it) (<[i := obj]> (_unsorted it)).

(** [_set_length(length)], called when all jobs have been handed out. *)
Definition _set_length (n : nat) (it : t) : t :=
  mk (_items it) (_index it) (Some n) (_unsorted it).

(** [next()]: the next item if one is ready; [StopIteration] once all
    have been handed over; otherwise the caller waits. *)
Inductive answer :=
| Item (x : A)
| Exhausted
| Waiting.

Definition next (it : t) : answer * t :=
  match _items it with
  | x :: rest => (Item x, mk rest (_index it) (_length it) (_unsorted it))
  | [] =>
      if decide (_length it = Some (_index it)) then (Exhausted, it)
      else (Waiting, it)
  end.

(** What happens to the iterator, in the order in which it happens: the
    result of a job arrives, all jobs have been handed out, or the loop
    asks for the next item. *)
Inductive event :=
| Arrives (i : nat)
| AllSubmitted
| Next.

(** The iterator and the items handed to the loop so far, after the
    events; [results] has the result of each job, in the order in which
    the jobs were submitted. *)
Fixpoint play (results : list A) (events : list event)
    (it : t) (handed : list A) : t * list A :=
  match events with
  | [] => (it, handed)
  | Arrives i :: events' =>
      match results !! i with
      | Some obj => play results events' (_set i obj it) handed
      | None => play results events' it handed
      end
  | AllSubmitted :: events' =>
      play results events' (_set_length (length results) it) handed
  | Next :: events' =>
      match next it with
      | (Item x, it') => play results events' it' (handed ++ [x])
      | (_, it') => play results events' it' handed
      end
  end.

(** What the iterator holds is what the jobs returned: the items handed
    over and those ready to be are the results of the first [_index]
    jobs, in order, and a result kept aside is that of its job. *)
Definition in_order (results : list A) (it : t) (handed : list A) : Prop :=
  handed ++ _items it = take (_index it) results
  /\ _index it <= length results
  /\ forall i x, _unsorted it !! i = Some x -> results !! i = Some x.

(** Nothing that has arrived is lost: the result of a job that has
    arrived was put with the items or is kept aside, and the loop of
    [_set] has run to its end. *)
Definition none_lost (results : list A) (it : t) (arrived : list nat) : Prop :=
  _unsorted it !! _index it = None
  /\ forall i, i ∈ arrived -> i < length results ->
       i < _index it \/ is_Some (_unsorted it !! i).

End Iterator.
Arguments t A : clear implicits.

End IMapIterator.

(** ** A small scan, for the examples *)

Module Example.

(** A printing of the numbers. *)
Definition str_num (q : number) : string :=
  pretty (Qnum q) +:+ "/" +:+ pretty (Zpos (Qden q)).

(** Every subnet of the examples has more addresses than the sample
    size, so its number of addresses to scan is the sample size. *)
Definition get_num_ips_in_cidr (_ : string) (sample_size : nat) : nat :=
  sample_size.

(** Two tries, no upload test, two addresses of each subnet. *)
Definition test_config : TestConfig := mkTestConfig 2 false 2.

Definition trials (speed latency : list number)
  : gmap string (list number) :=
  <["speed" := speed]> (<["latency" := latency]> ∅).

Definition not_measured : gmap string (list number) :=
  trials [NOT_MEASURED; NOT_MEASURED] [NOT_MEASURED; NOT_MEASURED].

Definition subnet : string := "10.0.0.0/24".

(** A successful result: two download trials, the upload lists as the
    speed test fills them when it does not test upload. *)
Definition measured (address : string) : ProbeResult :=
  mkProbeResult address subnet true "OK"
    (<["download" := trials [4#1; 6#1] [30#1; 50#1]]>
       (<["upload" := not_measured]> ∅)).

(** A successful result whose upload lists are there and hold zeros. *)
Definition zero_upload (address : string) : ProbeResult :=
  mkProbeResult address subnet true "OK"
    (<["download" := trials [4#1; 6#1] [30#1; 50#1]]>
       (<["upload" := trials [0#1; 0#1] [0#1; 0#1]]> ∅)).

(** A successful result that has no upload entry at all. *)
Definition without_upload (address : string) : ProbeResult :=
  mkProbeResult address subnet true "OK"
    (<["download" := trials [4#1; 6#1] [30#1; 50#1]]> ∅).

(** A result that did not succeed. *)
Definition failed (address : string) : ProbeResult :=
  mkProbeResult address subnet false "FAIL" ∅.

Definition setup : Setup :=
  mkSetup 2 false (Ok tt) (Ok tt) (Ok tt) (Ok [subnet]) (Ok test_config).

Definition start : state :=
  start_scan get_num_ips_in_cidr test_config (header_line 2) [subnet].

(** The same subnet listed twice, one address of it to scan. *)
Definition narrow_config : TestConfig := mkTestConfig 2 false 1.

Definition start_twice : state :=
  start_scan get_num_ips_in_cidr narrow_config (header_line 2)
    [subnet; subnet].

Definition running_twice (items : list (outcome ProbeResult)) : option state :=
  running_after str_num get_num_ips_in_cidr narrow_config items start_twice.

(** The addresses of a subnet, named by their number, as many as the
    sample size; and a speed test that measures every candidate. *)
Definition cidr_to_ip_list (_ : string) (sample_size : nat) : list string :=
  pretty <$> seq 1 sample_size.

Definition test_ip (candidate : string * string) : outcome ProbeResult :=
  Ok (measured candidate.1).

(** A result that names a subnet which is not in the list. *)
Definition stray (address : string) : ProbeResult :=
  mkProbeResult address "10.9.9.0/24" true "OK" ∅.

Definition iteration := iteration str_num get_num_ips_in_cidr test_config.
Definition scan_loop := scan_loop str_num get_num_ips_in_cidr test_config.
Definition running_after :=
  running_after str_num get_num_ips_in_cidr test_config.

End Example.

(** * Facts *)

Section ScannerFacts.

Variable str_num : number -> string.
Variable get_num_ips_in_cidr : string -> nat -> nat.
Variable test_config : TestConfig.

Local Abbreviation num_ips := (num_ips get_num_ips_in_cidr test_config).
Local Abbreviation write_result := (write_result str_num test_config).
Local Abbreviation show_progress := (show_progress get_num_ips_in_cidr test_config).
Local Abbreviation report := (report str_num test_config).
Local Abbreviation count_scanned := (count_scanned get_num_ips_in_cidr test_config).
Local Abbreviation process := (process str_num get_num_ips_in_cidr test_config).
Local Abbreviation try_block := (try_block str_num get_num_ips_in_cidr test_config).
Local Abbreviation iteration := (iteration str_num get_num_ips_in_cidr test_config).
Local Abbreviation scan_loop := (scan_loop str_num get_num_ips_in_cidr test_config).
Local Abbreviation running_after := (running_after str_num get_num_ips_in_cidr test_config).
Local Abbreviation start_scan := (start_scan get_num_ips_in_cidr test_config).
Local Abbreviation trial_set_of_probe := (trial_set_of_probe test_config).
Local Abbreviation well_formed := (well_formed get_num_ips_in_cidr test_config).
Local Abbreviation block_inv := (block_inv get_num_ips_in_cidr test_config).

(** ** The methods of [Progress], as equations *)

Lemma update_advance_eq id s :
  update_advance id s =
    match _tasks (progress s) !! id with
    | Some t =>
        (Ok tt, emit (TaskAdvanced id) (with_tasks <[id := advanced t]> s))
    | None => (Raise (KeyError (pretty id)), s)
    end.
Proof. unfold update_advance, bind, get_task, modify. by destruct (_ !! _). Qed.

Lemma stop_task_eq id s :
  stop_task id s =
    match _tasks (progress s) !! id with
    | Some t =>
        (Ok tt, emit (TaskStopped id) (with_tasks <[id := stopped t]> s))
    | None => (Raise (KeyError (pretty id)), s)
    end.
Proof. unfold stop_task, bind, get_task, modify. by destruct (_ !! _). Qed.

Lemma remove_task_eq id s :
  remove_task id s =
    match _tasks (progress s) !! id with
    | Some t =>
        (Ok tt, emit (TaskRemoved id (task_description t))
                  (with_tasks (delete id) s))
    | None => (Raise (KeyError (pretty id)), s)
    end.
Proof. unfold remove_task, bind, get_task, modify. by destruct (_ !! _). Qed.

(** ** Stopping and removing all tasks *)

Lemma stop_and_remove_each ids :
  forall s,
    NoDup ids ->
    (forall id, id ∈ ids -> is_Some (_tasks (progress s) !! id)) ->
    exists s' new,
      for_each ids (fun task_id =>
        let* _ := stop_task task_id in remove_task task_id) s = (Ok tt, s')
      /\ (forall id, _tasks (progress s') !! id =
            if decide (id ∈ ids) then None else _tasks (progress s) !! id)
      /\ same_results s s'
      /\ pool_terminated s' = pool_terminated s
      /\ live_started (progress s') = live_started (progress s)
      /\ trace s' = new ++ trace s
      /\ (forall id t, id ∈ ids -> _tasks (progress s) !! id = Some t ->
            TaskStopped id ∈ new /\ TaskRemoved id (task_description t) ∈ new).
Proof.
  induction ids as [|id ids IH]; intros s Hnd Hin.
  - exists s, []. split; [done|]. split.
    { intros j. case_decide as Hd; [by apply elem_of_nil in Hd | done]. }
    do 4 (split; [done|]). intros j tj Hj. by apply elem_of_nil in Hj.
  - apply NoDup_cons in Hnd as [Hid Hnd].
    destruct (Hin id) as [t Ht]; [by left|].
    set (s1 := emit (TaskStopped id) (with_tasks <[id := stopped t]> s)).
    set (s2 := emit (TaskRemoved id (task_description t))
                 (with_tasks (delete id) s1)).
    destruct (IH s2 Hnd) as (s' & new & Hrun & Htasks & Hsame & Hpool & Hlive & Htr & Hev).
    { intros j Hj. cbn. rewrite lookup_delete_ne by (intros ->; done).
      rewrite lookup_insert_ne by (intros ->; done). apply Hin. by right. }
    exists s', (new ++ [TaskRemoved id (task_description t); TaskStopped id]).
    split; [|split; [|split; [|split; [|split; [|split]]]]].
    + cbn [for_each]. unfold bind at 1 2. rewrite stop_task_eq, Ht.
      fold s1. rewrite remove_task_eq. cbn. rewrite lookup_insert_eq.
      cbn. exact Hrun.
    + intros j. rewrite Htasks. cbn.
      destruct (decide (j = id)) as [->|Hne].
      * rewrite lookup_delete_eq.
        destruct (decide (id ∈ id :: ids)) as [_|Hn]; [by case_decide|].
        destruct Hn. by left.
      * rewrite lookup_delete_ne, lookup_insert_ne by done.
        destruct (decide (j ∈ ids)) as [Hj|Hj];
          destruct (decide (j ∈ id :: ids)) as [Hj'|Hj']; try done.
        -- destruct Hj'. by right.
        -- apply elem_of_cons in Hj' as [->|?]; done.
    + destruct Hsame as (? & ? & ?). by repeat split.
    + done.
    + done.
    + rewrite Htr. cbn. by rewrite <- app_assoc.
    + intros j tj [->|Hj]%elem_of_cons Hlk.
      * rewrite Ht in Hlk. injection Hlk as <-.
        split; apply elem_of_app; right; [right; left | left].
      * destruct (Hev j tj Hj) as [? ?].
        { cbn. rewrite lookup_delete_ne by (intros ->; done).
          by rewrite lookup_insert_ne by (intros ->; done). }
        split; apply elem_of_app; by left.
Qed.


Lemma stop_and_remove_tasks_spec s :
  exists s' new,
    stop_and_remove_tasks s = (Ok tt, s')
    /\ _tasks (progress s') = ∅
    /\ same_results s s'
    /\ pool_terminated s' = pool_terminated s
    /\ live_started (progress s') = live_started (progress s)
    /\ trace s' = new ++ trace s
    /\ (forall id t, _tasks (progress s) !! id = Some t ->
          TaskStopped id ∈ new /\ TaskRemoved id (task_description t) ∈ new).
Proof.
  destruct (stop_and_remove_each (task_ids (progress s)) s)
    as (s' & new & Hrun & Htasks & Hsame & Hpool & Hlive & Htr & Hev).
  { apply NoDup_fst_map_to_list. }
  { intros id [[id' t] [-> Hin]]%list_elem_of_fmap.
    apply elem_of_map_to_list in Hin. by exists t. }
  assert (Hall : forall id t, _tasks (progress s) !! id = Some t ->
                   id ∈ task_ids (progress s)).
  { intros id t Hlk. apply list_elem_of_fmap. exists (id, t).
    split; [done|]. by apply elem_of_map_to_list. }
  exists s', new. split; [exact Hrun|]. split.
  { apply map_eq. intros id. rewrite Htasks, lookup_empty.
    case_decide as Hd; [done|].
    destruct (_tasks (progress s) !! id) as [t|] eqn:Hlk; [|done].
    destruct Hd. by eapply Hall. }
  do 4 (split; [done|]).
  intros id t Hlk. eapply Hev; [by eapply Hall | done].
Qed.

(** ** What the result block does *)

Lemma pure_ret {A} (a : A) : pure (ret a).
Proof. by exists (Ok a). Qed.

Lemma pure_raise {A} e : unexpected e = true -> pure (@raise A e).
Proof. intros He. by exists (Raise e). Qed.

Lemma pure_bind {A B} (m : M A) (k : A -> M B) :
  pure m -> (forall a, pure (k a)) -> pure (bind m k).
Proof.
  intros (x & Hx & He) Hk. destruct x as [a|e].
  - destruct (Hk a) as (y & Hy & Hye). exists y. split; [|done].
    intros s. unfold bind. by rewrite Hx, Hy.
  - exists (Raise e). split; [|done]. intros s. unfold bind. by rewrite Hx.
Qed.

Lemma pure_subscript {V} (d : gmap string V) key : pure (subscript d key).
Proof.
  unfold subscript. destruct (d !! key); [apply pure_ret | by apply pure_raise].
Qed.

Lemma pure_result_at res direction key : pure (result_at res direction key).
Proof.
  apply pure_bind; [apply pure_subscript | intros d; apply pure_subscript].
Qed.

Lemma pure_statistics_mean data : pure (statistics_mean data).
Proof. destruct data; [by apply pure_raise | apply pure_ret]. Qed.

Lemma pure_mean_jitter latencies : pure (mean_jitter latencies).
Proof.
  unfold mean_jitter. destruct (_ <? _); [apply pure_ret | apply pure_statistics_mean].
Qed.

Lemma pure_upload_figure f res key :
  (forall l, pure (f l)) -> pure (upload_figure test_config f res key).
Proof.
  intros Hf. unfold upload_figure. destruct (do_upload_test _); [|apply pure_ret].
  apply pure_bind; [apply pure_result_at | done].
Qed.

Lemma pure_res_parts_of res a b c d e f : pure (res_parts_of res a b c d e f).
Proof.
  unfold res_parts_of.
  repeat (apply pure_bind; [apply pure_result_at | intros ?]).
  apply pure_ret.
Qed.

(** The same statement, followed by one that may change the state. *)
Lemma bind_pure {A B} (m : M A) (k : A -> M B) s r s' :
  pure m ->
  bind m k s = (r, s') ->
  (exists a, m s = (Ok a, s) /\ k a s = (r, s'))
  \/ (exists e, r = Raise e /\ unexpected e = true /\ s' = s).
Proof.
  intros (x & Hx & He) H. unfold bind in H. rewrite Hx in H.
  destruct x as [a|e].
  - left. exists a. by rewrite Hx.
  - right. exists e. by simplify_eq.
Qed.

Ltac prove_pure :=
  first [ apply pure_result_at | apply pure_mean_jitter
        | apply pure_statistics_mean | apply pure_res_parts_of
        | apply pure_upload_figure; intros ?; prove_pure ].

(** Takes the first statement off [H : bind m k s = (r, s')] when it is a
    pure one; the case in which it raised is left as a goal. *)
Ltac pure_step H :=
  lazymatch type of H with
  | bind ?m ?k ?s = _ =>
      let Hp := fresh "Hp" in
      assert (Hp : pure m) by prove_pure;
      apply (bind_pure m k s _ _ Hp) in H;
      clear Hp;
      destruct H as [(? & _ & H)|(? & -> & ? & ->)]
  end.

Lemma write_result_spec res s r s' :
  write_result res s = (r, s') ->
  progress s' = progress s
  /\ pool_terminated s' = pool_terminated s
  /\ cidr_scanned_ips s' = cidr_scanned_ips s
  /\ cidr_prog_tasks s' = cidr_prog_tasks s
  /\ match r with
     | Ok _ =>
         trace s' = Rprint (message res) :: trace s
         /\ exists line, outfile s' = outfile s ++ [line]
     | Raise e =>
         unexpected e = true
         /\ outfile s' = outfile s
         /\ (trace s' = trace s \/ trace s' = Rprint (message res) :: trace s)
     end.
Proof.
  intros H. unfold write_result in H.
  repeat pure_step H; try (cbn; by eauto 10).
  unfold bind at 1 in H. cbn in H.
  pure_step H; try (cbn; by eauto 10).
  cbv [outfile_write modify] in H. simplify_eq. cbn. eauto 10.
Qed.


(** ** Counting in traces *)

Lemma count_effects_app f tr1 tr2 :
  count_effects f (tr1 ++ tr2) = count_effects f tr1 + count_effects f tr2.
Proof. induction tr1 as [|e tr1 IH]; cbn; [done|]. rewrite IH. lia. Qed.

Lemma never_recreated_app c new tr :
  count_effects (is_removal c) new = 0 ->
  (count_effects (is_creation c) new <> 0 ->
   count_effects (is_removal c) tr = 0) ->
  never_recreated c tr -> never_recreated c (new ++ tr).
Proof.
  induction new as [|e new IH]; cbn; intros Hrem Hcre Htr; [done|].
  split.
  - intros He. rewrite count_effects_app.
    rewrite Hcre by (rewrite He; lia). lia.
  - apply IH; [lia | intros ?; apply Hcre; lia | done].
Qed.

(** ** Well-formed states *)

Lemma well_formed_same s s' :
  _tasks (progress s') = _tasks (progress s) ->
  _task_index (progress s') = _task_index (progress s) ->
  cidr_prog_tasks s' = cidr_prog_tasks s ->
  well_formed s -> well_formed s'.
Proof.
  intros Ht Hi Hc [H1 H2 H3 H4].
  split; rewrite ?Ht, ?Hi, ?Hc; done.
Qed.

Lemma well_formed_advance s id t e :
  _tasks (progress s) !! id = Some t ->
  well_formed s ->
  well_formed (emit e (with_tasks <[id := advanced t]> s)).
Proof.
  intros Ht [(t0 & n0 & Ht0 & Hd0) Hfresh Hprog Hdescr]. split; cbn.
  - destruct (decide (id = all_ips_task)) as [->|Hne].
    + exists (advanced t), n0. rewrite lookup_insert_eq. split; [done|].
      cbn. by simplify_eq.
    + exists t0, n0. by rewrite lookup_insert_ne.
  - intros j Hj. apply Hfresh.
    destruct (decide (id = j)) as [->|Hne]; [by rewrite Ht|].
    by rewrite lookup_insert_ne in Hj.
  - done.
  - intros c j tj Hc Hj.
    destruct (decide (id = j)) as [->|Hne].
    + rewrite lookup_insert_eq in Hj. simplify_eq. cbn. by eapply Hdescr.
    + rewrite lookup_insert_ne in Hj by done. by eapply Hdescr.
Qed.

Lemma well_formed_add s c e :
  well_formed s ->
  well_formed
    (set_cidr_prog_tasks (<[c := _task_index (progress s)]> (cidr_prog_tasks s))
       (emit e
          (set_progress
             (mkProgress
                (<[_task_index (progress s) :=
                     mkTask (Subnet c (num_ips c)) (num_ips c) 0 false]>
                   (_tasks (progress s)))
                (S (_task_index (progress s))) (live_started (progress s)))
             s))).
Proof.
  intros [(t0 & n0 & Ht0 & Hd0) Hfresh Hprog Hdescr].
  assert (Hidx : all_ips_task < _task_index (progress s)).
  { apply Hfresh. by rewrite Ht0. }
  split; cbn.
  - exists t0, n0. rewrite lookup_insert_ne by lia. done.
  - intros j Hj. destruct (decide (_task_index (progress s) = j)) as [<-|Hne]; [lia|].
    rewrite lookup_insert_ne in Hj by done. apply Hfresh in Hj. lia.
  - intros c' j Hc'. destruct (decide (c = c')) as [->|Hne].
    + rewrite lookup_insert_eq in Hc'. simplify_eq. lia.
    + rewrite lookup_insert_ne in Hc' by done. apply Hprog in Hc'. lia.
  - intros c' j tj Hc' Hj. destruct (decide (c = c')) as [->|Hne].
    + rewrite lookup_insert_eq in Hc'. simplify_eq.
      rewrite lookup_insert_eq in Hj. by simplify_eq.
    + rewrite lookup_insert_ne in Hc' by done.
      pose proof (Hprog _ _ Hc').
      rewrite lookup_insert_ne in Hj by lia. by eapply Hdescr.
Qed.

Lemma well_formed_remove s s' id :
  id <> all_ips_task ->
  _tasks (progress s') = delete id (_tasks (progress s)) ->
  _task_index (progress s') = _task_index (progress s) ->
  cidr_prog_tasks s' = cidr_prog_tasks s ->
  well_formed s -> well_formed s'.
Proof.
  intros Hid Ht Hi Hc [(t0 & n0 & Ht0 & Hd0) Hfresh Hprog Hdescr].
  split; rewrite ?Ht, ?Hi, ?Hc.
  - exists t0, n0. by rewrite lookup_delete_ne.
  - intros j [tj Hj]. apply lookup_delete_Some in Hj as [_ Hj].
    apply Hfresh. by rewrite Hj.
  - done.
  - intros c j tj Hcj Hj. apply lookup_delete_Some in Hj as [_ Hj].
    by eapply Hdescr.
Qed.

Lemma well_formed_emit s e : well_formed s -> well_formed (emit e s).
Proof. by apply well_formed_same. Qed.

(** ** The three groups of the [try] block *)

Lemma show_progress_spec res s r s' :
  well_formed s ->
  show_progress res s = (r, s') ->
  well_formed s'
  /\ outfile s' = outfile s
  /\ cidr_scanned_ips s' = cidr_scanned_ips s
  /\ pool_terminated s' = pool_terminated s
  /\ live_started (progress s') = live_started (progress s)
  /\ overall s' = S <$> overall s
  /\ (forall id, id < _task_index (progress s) ->
        _tasks (progress s) !! id = None -> _tasks (progress s') !! id = None)
  /\ (forall c, c <> cidr res \/ cidr_scanned_ips s !! cidr res <> Some 0 ->
        cidr_prog_tasks s' !! c = cidr_prog_tasks s !! c)
  /\ (exists new,
        trace s' = new ++ TaskAdvanced all_ips_task :: trace s
        /\ count_effects is_unknown_error new = 0
        /\ (forall c, count_effects (is_removal c) new = 0)
        /\ (forall c, count_effects (is_creation c) new =
              if decide (c = cidr res
                         /\ cidr_scanned_ips s !! cidr res = Some 0)
              then 1 else 0))
  /\ match r with
     | Ok _ =>
         exists n task_id,
           cidr_scanned_ips s !! cidr res = Some n
           /\ cidr_prog_tasks s' !! cidr res = Some task_id
           /\ is_Some (_tasks (progress s') !! task_id)
           /\ (n <> 0 ->
               cidr_prog_tasks s !! cidr res = Some task_id
               /\ is_Some (_tasks (progress s) !! task_id))
     | Raise e => unexpected e = true
     end.
Proof.
  intros Hwf H.
  pose proof Hwf as [(t0 & n0 & Ht0 & Hd0) Hfresh Hprog Hdescr].
  assert (Hidx : all_ips_task < _task_index (progress s)).
  { apply Hfresh. by rewrite Ht0. }
  unfold show_progress in H. unfold bind at 1 in H.
  rewrite update_advance_eq, Ht0 in H.
  pose proof (well_formed_advance s all_ips_task t0
                (TaskAdvanced all_ips_task) Ht0 Hwf) as Hwf1.
  set (s1 := emit (TaskAdvanced all_ips_task)
               (with_tasks <[all_ips_task:=advanced t0]> s)) in *.
  assert (Hov : overall s1 = S <$> overall s).
  { unfold overall. cbn. rewrite lookup_insert_eq, Ht0. cbn. f_equal. lia. }
  assert (Hnone1 : forall id, _tasks (progress s) !! id = None ->
                     _tasks (progress s1) !! id = None).
  { intros id Hid. cbn. rewrite lookup_insert_ne; [done|]. by intros <-; simplify_eq. }
  cbv [bind gets subscript ret raise modify] in H.
  change (cidr_scanned_ips s1) with (cidr_scanned_ips s) in H.
  destruct (cidr_scanned_ips s !! cidr res) as [n|] eqn:Hn.
  2:{ simplify_eq. do 8 (split; [by auto|]). split; [|done].
      exists []. split; [done|]. split; [done|]. split; [done|].
      intros c. by rewrite decide_False by (intros [_ ?]; done). }
  destruct (n =? 0) eqn:Hz.
  - apply Nat.eqb_eq in Hz as ->.
    unfold add_task in H.
    change (_task_index (progress s1)) with (_task_index (progress s)) in H.
    set (idx := _task_index (progress s)) in *.
    cbn [cidr_prog_tasks set_cidr_prog_tasks emit set_progress] in H.
    rewrite lookup_insert_eq in H.
    rewrite update_advance_eq in H. cbn [_tasks progress set_cidr_prog_tasks emit set_progress] in H.
    rewrite lookup_insert_eq in H. simplify_eq.
    pose proof (well_formed_add s1 (cidr res)
                  (TaskAdded idx (Subnet (cidr res) (num_ips (cidr res)))) Hwf1)
      as Hwf2.
    split.
    { eapply (well_formed_advance _ idx); [|exact Hwf2].
      cbn. by rewrite lookup_insert_eq. }
    do 4 (split; [done|]).
    split.
    { rewrite <- Hov. unfold overall. cbn.
      by rewrite !(lookup_insert_ne _ idx) by (unfold idx; lia). }
    split.
    { intros id Hlt Hid. cbn.
      rewrite !(lookup_insert_ne _ idx) by (unfold idx; lia).
      by apply Hnone1. }
    split.
    { intros c [Hc|Hc]; [|done]. cbn. by rewrite lookup_insert_ne. }
    split.
    { exists [TaskAdvanced idx;
              TaskAdded idx (Subnet (cidr res) (num_ips (cidr res)))].
      split; [done|]. split; [done|]. split; [done|].
      intros c. cbn. case_bool_decide as Hb; case_decide as Hd; try done.
      - destruct Hd. by split.
      - by destruct Hd as [-> _]. }
    exists 0, idx. split; [done|]. cbn. by rewrite !lookup_insert_eq.
  - apply Nat.eqb_neq in Hz.
    change (cidr_prog_tasks s1) with (cidr_prog_tasks s) in H.
    destruct (cidr_prog_tasks s !! cidr res) as [tid|] eqn:Htid.
    2:{ simplify_eq. do 8 (split; [by auto|]). split; [|done].
        exists []. split; [done|]. split; [done|]. split; [done|].
        intros c. rewrite decide_False; [done|]. intros [_ ?]. by simplify_eq. }
    rewrite update_advance_eq in H.
    destruct (_tasks (progress s1) !! tid) as [t|] eqn:Ht.
    2:{ simplify_eq. do 8 (split; [by auto|]). split; [|done].
        exists []. split; [done|]. split; [done|]. split; [done|].
        intros c. rewrite decide_False; [done|]. intros [_ ?]. by simplify_eq. }
    simplify_eq.
    pose proof (Hprog _ _ Htid) as Htid_range.
    split; [by apply well_formed_advance|].
    do 4 (split; [done|]).
    split.
    { rewrite <- Hov. unfold overall. cbn -[s1].
      by rewrite (lookup_insert_ne _ tid) by lia. }
    split.
    { intros id Hlt Hid. cbn -[s1].
      destruct (decide (tid = id)) as [->|Hne].
      - apply Hnone1 in Hid. by rewrite Hid in Ht.
      - rewrite lookup_insert_ne by done. by apply Hnone1. }
    split; [done|].
    split.
    { exists [TaskAdvanced tid].
      split; [done|]. split; [done|]. split; [done|].
      intros c. rewrite decide_False; [done|]. intros [_ ?]. by simplify_eq. }
    exists n, tid. split; [done|]. split; [done|].
    split; [cbn -[s1]; by rewrite lookup_insert_eq|].
    intros _. split; [done|]. exists t. rewrite <- Ht. cbn.
    by rewrite lookup_insert_ne by lia.
Qed.


Lemma report_spec res s r s' :
  report res s = (r, s') ->
  progress s' = progress s
  /\ pool_terminated s' = pool_terminated s
  /\ cidr_scanned_ips s' = cidr_scanned_ips s
  /\ cidr_prog_tasks s' = cidr_prog_tasks s
  /\ (trace s' = trace s \/ trace s' = Rprint (message res) :: trace s)
  /\ match r with
     | Ok _ =>
         trace s' = Rprint (message res) :: trace s
         /\ if is_ok res then exists line, outfile s' = outfile s ++ [line]
            else outfile s' = outfile s
     | Raise e =>
         unexpected e = true /\ is_ok res = true /\ outfile s' = outfile s
     end.
Proof.
  unfold report. destruct (is_ok res) eqn:Hok.
  - intros (Hp & Hpool & Hsc & Hpt & H)%write_result_spec.
    do 4 (split; [done|]). destruct r as [[]|e].
    + destruct H as [Htr Hline]. by eauto.
    + destruct H as (He & Hout & Htr). by eauto.
  - unfold rprint, modify. intros H. simplify_eq. cbn. by eauto 10.
Qed.

Lemma count_scanned_spec res s n task_id t :
  cidr_scanned_ips s !! cidr res = Some n ->
  cidr_prog_tasks s !! cidr res = Some task_id ->
  _tasks (progress s) !! task_id = Some t ->
  exists s',
    count_scanned res s = (Ok tt, s')
    /\ cidr_scanned_ips s' = <[cidr res := n + 1]> (cidr_scanned_ips s)
    /\ outfile s' = outfile s
    /\ cidr_prog_tasks s' = cidr_prog_tasks s
    /\ pool_terminated s' = pool_terminated s
    /\ live_started (progress s') = live_started (progress s)
    /\ _task_index (progress s') = _task_index (progress s)
    /\ if decide (n + 1 = num_ips (cidr res)) then
         _tasks (progress s') = delete task_id (_tasks (progress s))
         /\ trace s' = TaskRemoved task_id (task_description t) :: trace s
       else
         _tasks (progress s') = _tasks (progress s) /\ trace s' = trace s.
Proof.
  intros Hn Htid Ht. unfold count_scanned.
  cbv [bind gets subscript ret raise modify].
  rewrite Hn. cbn [cidr_scanned_ips set_cidr_scanned_ips].
  rewrite lookup_insert_eq.
  destruct (n + 1 =? num_ips (cidr res)) eqn:Heq.
  - apply Nat.eqb_eq in Heq.
    cbn [cidr_prog_tasks set_cidr_scanned_ips]. rewrite Htid.
    rewrite remove_task_eq. cbn [progress set_cidr_scanned_ips].
    rewrite Ht. eexists. split; [done|]. cbn.
    do 6 (split; [done|]). by rewrite decide_True.
  - apply Nat.eqb_neq in Heq. eexists. split; [done|]. cbn.
    do 6 (split; [done|]). by rewrite decide_False.
Qed.

(** The [try] block for a result that the iterator has handed over. *)
Lemma process_spec res s r s' :
  well_formed s ->
  process res s = (r, s') ->
  well_formed s'
  /\ pool_terminated s' = pool_terminated s
  /\ live_started (progress s') = live_started (progress s)
  /\ overall s' = S <$> overall s
  /\ (forall id, id < _task_index (progress s) ->
        _tasks (progress s) !! id = None -> _tasks (progress s') !! id = None)
  /\ (forall c, c <> cidr res \/ cidr_scanned_ips s !! cidr res <> Some 0 ->
        cidr_prog_tasks s' !! c = cidr_prog_tasks s !! c)
  /\ (exists new, trace s' = new ++ TaskAdvanced all_ips_task :: trace s)
  /\ unknown_errors s' = unknown_errors s
  /\ (forall c, creations c s' = creations c s +
        if decide (c = cidr res /\ cidr_scanned_ips s !! cidr res = Some 0)
        then 1 else 0)
  /\ (forall c, never_recreated c (trace s) ->
        (c = cidr res -> cidr_scanned_ips s !! cidr res = Some 0 ->
         removals c s = 0) ->
        never_recreated c (trace s'))
  /\ match r with
     | Ok _ =>
         exists n task_id,
           cidr_scanned_ips s !! cidr res = Some n
           /\ cidr_scanned_ips s' = <[cidr res := n + 1]> (cidr_scanned_ips s)
           /\ cidr_prog_tasks s' !! cidr res = Some task_id
           /\ (n <> 0 ->
               cidr_prog_tasks s !! cidr res = Some task_id
               /\ is_Some (_tasks (progress s) !! task_id))
           /\ (n + 1 = num_ips (cidr res) ->
               _tasks (progress s') !! task_id = None)
           /\ (forall c, removals c s' = removals c s +
                 if decide (c = cidr res /\ n + 1 = num_ips (cidr res))
                 then 1 else 0)
           /\ if is_ok res then exists line, outfile s' = outfile s ++ [line]
              else outfile s' = outfile s
     | Raise e =>
         unexpected e = true
         /\ cidr_scanned_ips s' = cidr_scanned_ips s
         /\ outfile s' = outfile s
         /\ (forall c, removals c s' = removals c s)
     end.
Proof.
  intros Hwf H. unfold process in H. unfold bind at 1 in H.
  destruct (show_progress res s) as [r1 s1] eqn:H1.
  destruct (show_progress_spec _ _ _ _ Hwf H1)
    as (Hwf1 & Hout1 & Hsc1 & Hpool1 & Hlive1 & Hov1 & Hnone1 & Hpt1
        & (new1 & Htr1 & Herr1 & Hrem1 & Hcre1) & Hr1).
  assert (Hcount1 : forall f, count_effects f (trace s1) =
            count_effects f new1
            + count_effects f (TaskAdvanced all_ips_task :: trace s)).
  { intros f. by rewrite Htr1, count_effects_app. }
  assert (Hnever1 : forall c, never_recreated c (trace s) ->
            (c = cidr res -> cidr_scanned_ips s !! cidr res = Some 0 ->
             removals c s = 0) ->
            never_recreated c (trace s1)).
  { intros c Hnr Hz. rewrite Htr1.
    apply (never_recreated_app c new1 (_ :: _)); [by apply Hrem1| |by split].
    rewrite Hcre1. destruct (decide _) as [Hd|Hd]; [|intros Hn0; by destruct Hn0].
    intros _.
    destruct Hd as [-> Hs]. cbn. by apply Hz. }
  destruct r1 as [[]|e1].
  2:{ simplify_eq. do 6 (split; [done|]). split; [by eauto|].
      split; [unfold unknown_errors; rewrite Hcount1, Herr1; done|].
      split; [intros c; unfold creations; rewrite Hcount1, Hcre1; cbn; lia|].
      split; [done|].
      do 3 (split; [done|]).
      intros c. unfold removals. rewrite Hcount1, Hrem1. done. }
  destruct Hr1 as (n & tid & Hn & Htid & [t Ht] & Hold).
  unfold bind at 1 in H.
  destruct (report res s1) as [r2 s2] eqn:H2.
  destruct (report_spec _ _ _ _ H2) as (Hp2 & Hpool2 & Hsc2 & Hpt2 & Htr2 & Hr2).
  assert (Hcount2 : forall f, f (Rprint (message res)) = false ->
            count_effects f (trace s2) = count_effects f (trace s1)).
  { intros f Hf. destruct Htr2 as [->| ->]; [done|]. cbn. by rewrite Hf. }
  assert (Hnever2 : forall c, never_recreated c (trace s1) ->
            never_recreated c (trace s2)).
  { intros c Hnr. destruct Htr2 as [->| ->]; [done|]. by split. }
  assert (Hwf2 : well_formed s2).
  { eapply (well_formed_same s1 s2); by rewrite ?Hp2. }
  destruct r2 as [[]|e2].
  2:{ destruct Hr2 as (He2 & Hok & Hout2). simplify_eq.
      split; [done|]. rewrite Hp2.
      do 2 (split; [congruence|]). split; [unfold overall; by rewrite Hp2|].
      split; [done|]. split; [intros c Hc; rewrite Hpt2; by apply Hpt1|].
      split.
      { destruct Htr2 as [->| ->]; rewrite Htr1; [by eauto|].
        by exists (Rprint (message res) :: new1). }
      split; [unfold unknown_errors; rewrite Hcount2, Hcount1, Herr1; done|].
      split; [intros c; unfold creations; rewrite Hcount2, Hcount1, Hcre1 by done;
              cbn; lia|].
      split; [by auto|].
      split; [done|]. split; [congruence|]. split; [congruence|].
      intros c. unfold removals. rewrite Hcount2, Hcount1, Hrem1; done. }
  destruct Hr2 as [Htr2' Hout2].
  destruct (count_scanned_spec res s2 n tid t)
    as (s3 & H3 & Hsc3 & Hout3 & Hpt3 & Hpool3 & Hlive3 & Hidx3 & Hrm);
    [congruence | congruence | by rewrite Hp2 |].
  rewrite H3 in H. simplify_eq.
  pose proof (wf_prog_tasks _ _ _ Hwf1 _ _ Htid) as Hrange.
  pose proof (wf_description _ _ _ Hwf1 _ _ _ Htid Ht) as Hdescr.
  assert (Hnone3 : forall id, _tasks (progress s2) !! id = None ->
                     _tasks (progress s') !! id = None).
  { intros id Hid. case_decide; destruct Hrm as [-> _]; [|done].
    apply lookup_delete_None. by right. }
  assert (Hcount3 : forall f,
            count_effects f (trace s') =
            (if decide (n + 1 = num_ips (cidr res))
             then (if f (TaskRemoved tid (task_description t)) then 1 else 0)
             else 0)
            + count_effects f (trace s2)).
  { intros f. case_decide; destruct Hrm as [_ ->]; done. }
  split.
  { case_decide; destruct Hrm as [Htasks Htrace].
    - by eapply (well_formed_remove s2 s' tid); [lia|..].
    - by eapply (well_formed_same s2 s'). }
  split; [congruence|]. split; [rewrite Hlive3, Hp2; congruence|].
  split.
  { rewrite <- Hov1. unfold overall. rewrite <- Hp2.
    case_decide; destruct Hrm as [-> _]; [|done].
    by rewrite lookup_delete_ne by lia. }
  split; [intros id Hlt Hid; apply Hnone3; rewrite Hp2; by apply Hnone1|].
  split; [intros c Hc; rewrite Hpt3, Hpt2; by apply Hpt1|].
  split.
  { rewrite Htr2', Htr1 in Hrm.
    case_decide; destruct Hrm as [_ ->].
    - by exists (TaskRemoved tid (task_description t)
                 :: Rprint (message res) :: new1).
    - by exists (Rprint (message res) :: new1). }
  split.
  { unfold unknown_errors. rewrite Hcount3, Hcount2, Hcount1, Herr1 by done.
    cbn. by case_decide. }
  split.
  { intros c. unfold creations.
    rewrite Hcount3, Hcount2, Hcount1, Hcre1 by done. cbn.
    case_decide; cbn; lia. }
  split.
  { intros c Hnr Hz. specialize (Hnever2 c (Hnever1 c Hnr Hz)).
    case_decide; destruct Hrm as [_ ->]; [|done]. by split. }
  exists n, tid. split; [done|]. split; [congruence|].
  split; [congruence|]. split; [done|].
  split.
  { intros Heq. rewrite decide_True in Hrm by done. destruct Hrm as [-> _].
    apply lookup_delete_eq. }
  split.
  { intros c. unfold removals.
    rewrite Hcount3, Hcount2, Hcount1, Hrem1 by done. rewrite Hdescr. cbn.
    destruct (decide (n + 1 = num_ips (cidr res))) as [Heq|Hne].
    - case_bool_decide as Hb; destruct (decide _) as [Hd|Hd]; try lia.
      + destruct Hd. by split.
      + by destruct Hd as [-> _].
    - rewrite decide_False; [lia|]. by intros [_ ?]. }
  rewrite Hout3. destruct (is_ok res); [|congruence].
  destruct Hout2 as [line ->]. rewrite Hout1. by eauto.
Qed.


(** The same block in any state whatever: what it does to the file. *)
Lemma show_progress_any res s r s' :
  show_progress res s = (r, s') ->
  outfile s' = outfile s
  /\ cidr_scanned_ips s' = cidr_scanned_ips s
  /\ pool_terminated s' = pool_terminated s
  /\ match r with
     | Ok _ =>
         exists n task_id t,
           cidr_scanned_ips s' !! cidr res = Some n
           /\ cidr_prog_tasks s' !! cidr res = Some task_id
           /\ _tasks (progress s') !! task_id = Some t
     | Raise e => unexpected e = true
     end.
Proof.
  intros H. unfold show_progress in H. unfold bind at 1 in H.
  rewrite update_advance_eq in H.
  destruct (_tasks (progress s) !! all_ips_task) as [t0|]; [|by simplify_eq].
  set (s1 := emit (TaskAdvanced all_ips_task)
               (with_tasks <[all_ips_task:=advanced t0]> s)) in *.
  cbv [bind gets subscript ret raise modify] in H.
  change (cidr_scanned_ips s1) with (cidr_scanned_ips s) in H.
  destruct (cidr_scanned_ips s !! cidr res) as [n|] eqn:Hn; [|by simplify_eq].
  destruct (n =? 0).
  - unfold add_task in H.
    cbn [cidr_prog_tasks set_cidr_prog_tasks emit set_progress] in H.
    rewrite lookup_insert_eq in H. rewrite update_advance_eq in H.
    cbn [_tasks progress set_cidr_prog_tasks emit set_progress] in H.
    rewrite lookup_insert_eq in H. simplify_eq.
    do 3 (split; [done|]). exists n, (_task_index (progress s1)). eexists.
    split; [done|]. cbn. by rewrite !lookup_insert_eq.
  - change (cidr_prog_tasks s1) with (cidr_prog_tasks s) in H.
    destruct (cidr_prog_tasks s !! cidr res) as [tid|] eqn:Htid;
      [|by simplify_eq].
    rewrite update_advance_eq in H.
    destruct (_tasks (progress s1) !! tid) as [t|] eqn:Ht; [|by simplify_eq].
    simplify_eq. do 3 (split; [done|]). exists n, tid. eexists.
    split; [done|]. split; [done|]. cbn -[s1]. by rewrite lookup_insert_eq.
Qed.

Lemma process_any res s r s' :
  process res s = (r, s') ->
  pool_terminated s' = pool_terminated s
  /\ match r with
     | Ok _ =>
         Rprint (message res) ∈ trace s'
         /\ if is_ok res then exists line, outfile s' = outfile s ++ [line]
            else outfile s' = outfile s
     | Raise e =>
         unexpected e = true
         /\ outfile s' = outfile s
         /\ cidr_scanned_ips s' = cidr_scanned_ips s
     end.
Proof.
  intros H. unfold process in H. unfold bind at 1 in H.
  destruct (show_progress res s) as [r1 s1] eqn:H1.
  apply show_progress_any in H1 as (Hout1 & Hsc1 & Hpool1 & Hr1).
  destruct r1 as [[]|e1]; [|by simplify_eq].
  destruct Hr1 as (n & tid & t & Hn & Htid & Ht).
  unfold bind at 1 in H.
  destruct (report res s1) as [r2 s2] eqn:H2.
  apply report_spec in H2 as (Hp2 & Hpool2 & Hsc2 & Hpt2 & Htr2 & Hr2).
  destruct r2 as [[]|e2].
  2:{ destruct Hr2 as (He2 & Hok & Hout2). simplify_eq.
      split; [congruence|]. split; [done|]. split; congruence. }
  destruct Hr2 as [Htr2' Hout2].
  destruct (count_scanned_spec res s2 n tid t)
    as (s3 & H3 & Hsc3 & Hout3 & Hpt3 & Hpool3 & _ & _ & Htr3);
    [congruence | congruence | by rewrite Hp2 |].
  rewrite H3 in H. simplify_eq. split; [congruence|].
  split.
  { case_decide; destruct Htr3 as [_ ->]; rewrite Htr2'; [right|]; by left. }
  rewrite Hout3. destruct (is_ok res); [|congruence].
  destruct Hout2 as [line ->]. rewrite Hout1. by eauto.
Qed.

(** ** The handlers *)

Lemma handler_unexpected e s :
  unexpected e = true ->
  handler e s =
    (Ok Running,
     emit (LoggingException e)
       (emit (ConsolePrintException e)
          (emit (ProgressLog "[red]Unknown error![/red]") s))).
Proof. by destruct e. Qed.

Lemma handler_fatal msg s :
  handler (StartProxyServiceError msg) s =
    (Ok Aborted,
     emit (LoggingException (StartProxyServiceError msg))
       (pool_terminate
          (emit (ConsoleLog ("[red]" +:+ msg +:+ "[/red]"))
             (progress_stop s).2)).2).
Proof. done. Qed.

Lemma handler_clears (interrupted : bool) s :
  exists s' new,
    handler (if interrupted then KeyboardInterrupt else StopIteration) s =
      (Ok (if interrupted then Cancelled else Completed), s')
    /\ _tasks (progress s') = ∅
    /\ live_started (progress s') = false
    /\ pool_terminated s' = (if interrupted then true else pool_terminated s)
    /\ same_results s s'
    /\ trace s' = new ++ trace s
    /\ (forall id t, _tasks (progress s) !! id = Some t ->
          TaskStopped id ∈ new /\ TaskRemoved id (task_description t) ∈ new).
Proof.
  destruct (stop_and_remove_tasks_spec s)
    as (s1 & new & Hrun & Htasks & Hsame & Hpool & Hlive & Htr & Hev).
  destruct interrupted; cbn [handler]; unfold bind at 1; rewrite Hrun.
  - eexists.
    exists (PoolTerminated :: ProgressLog "[yellow]KeyboardInterrupt detected (scan phase)[/yellow]"
            :: ProgressStopped :: new).
    split; [done|]. cbn. rewrite Htr.
    do 5 (split; [done|]). intros id t Hid.
    destruct (Hev id t Hid). split; by do 3 right.
  - eexists. exists (ProgressLog "Finished scanning ips." :: ProgressStopped :: new).
    split; [done|]. cbn. rewrite Htr.
    do 5 (split; [done|]). intros id t Hid.
    destruct (Hev id t Hid). split; by do 2 right.
Qed.

(** ** One round of the loop, and many *)

Lemma try_block_result res s : try_block (Some (Ok res)) s = process res s.
Proof. done. Qed.

Lemma try_block_raise e s : try_block (Some (Raise e)) s = (Raise e, s).
Proof. done. Qed.

Lemma iteration_of_try item s :
  iteration item s =
    match try_block item s with
    | (Ok _, s') => (Ok Running, s')
    | (Raise e, s') => handler e s'
    end.
Proof. done. Qed.

Lemma running_after_app items1 items2 s :
  running_after (items1 ++ items2) s =
    running_after items1 s ≫= running_after items2.
Proof.
  revert s. induction items1 as [|item items1 IH]; intros s; [done|].
  cbn. destruct (iteration (Some item) s) as [[[]|] s1]; by auto.
Qed.

Lemma scan_loop_app items1 items2 s s1 :
  running_after items1 s = Some s1 ->
  scan_loop (items1 ++ items2) s = scan_loop items2 s1.
Proof.
  revert s. induction items1 as [|item items1 IH]; intros s H.
  - cbn in H. by simplify_eq.
  - cbn in *. destruct (iteration (Some item) s) as [[[]|] s2]; by auto.
Qed.

(** A round that ends in [Running] leaves a well-formed state
    well-formed. *)
Lemma iteration_well_formed item s s' :
  well_formed s ->
  iteration (Some item) s = (Ok Running, s') ->
  well_formed s'.
Proof.
  intros Hwf H. rewrite iteration_of_try in H.
  destruct item as [res|e].
  - rewrite try_block_result in H.
    destruct (process res s) as [r s1] eqn:Hp.
    apply process_spec in Hp as (Hwf1 & _ & _ & _ & _ & _ & _ & _ & _ & _ & Hr);
      [|done].
    destruct r as [[]|e]; [by simplify_eq|].
    destruct Hr as [He _]. rewrite handler_unexpected in H by done.
    simplify_eq. by do 3 apply well_formed_emit.
  - rewrite try_block_raise in H.
    destruct (unexpected e) eqn:He.
    + rewrite handler_unexpected in H by done.
      simplify_eq. by do 3 apply well_formed_emit.
    + destruct e; try done.
      * destruct (handler_clears false s) as (? & ? & Hh & _).
        rewrite Hh in H. by simplify_eq.
      * destruct (handler_clears true s) as (? & ? & Hh & _).
        rewrite Hh in H. by simplify_eq.
Qed.

Lemma running_after_well_formed items s s' :
  well_formed s -> running_after items s = Some s' -> well_formed s'.
Proof.
  revert s. induction items as [|item items IH]; intros s Hwf H.
  - cbn in H. by simplify_eq.
  - cbn in H. destruct (iteration (Some item) s) as [[[]|] s1] eqn:Hi; try done.
    eapply IH; [|done]. by eapply iteration_well_formed.
Qed.

Lemma start_scan_well_formed header cidr_list :
  well_formed (start_scan header cidr_list).
Proof.
  split; cbn.
  - eexists _, _. by rewrite lookup_insert_eq.
  - intros id [t Hid]. apply lookup_insert_Some in Hid as [[<- _]|[_ Hid]]; [lia|done].
  - intros c id Hc. by rewrite lookup_empty in Hc.
  - intros c id t Hc. by rewrite lookup_empty in Hc.
Qed.


Lemma unstopped_runs_on item s :
  unstopped item = true ->
  exists s', iteration (Some item) s = (Ok Running, s').
Proof.
  intros Hitem. rewrite iteration_of_try. destruct item as [res|e].
  - rewrite try_block_result. destruct (process res s) as [[[]|e] s1] eqn:Hp;
      [by eauto|].
    apply process_any in Hp as (_ & He & _).
    rewrite handler_unexpected by done. by eauto.
  - rewrite try_block_raise, handler_unexpected by done. by eauto.
Qed.

Lemma unstopped_scan_completes items :
  forall s,
    forallb unstopped items = true ->
    (exists s', running_after items s = Some s')
    /\ exists s', scan_loop items s = (Ok Completed, s').
Proof.
  induction items as [|item items IH]; intros s Hall.
  - split; [by exists s|]. cbn [scan_loop]. rewrite iteration_of_try. cbn.
    destruct (handler_clears false s) as (s' & new & Hh & _). by eauto.
  - cbn in Hall. apply andb_true_iff in Hall as [Hitem Hall].
    destruct (unstopped_runs_on item s Hitem) as [s1 H1].
    cbn. rewrite H1. by apply IH.
Qed.

(** The end of the iterator clears the display as the interrupt does. *)
Lemma end_of_iterator_clears_display s :
  exists s',
    scan_loop [] s = (Ok Completed, s')
    /\ _tasks (progress s') = ∅
    /\ live_started (progress s') = false
    /\ outfile s' = outfile s.
Proof.
  destruct (handler_clears false s)
    as (s' & new & Hh & Htasks & Hlive & _ & (Hout & _) & _).
  exists s'. split; [exact Hh|done].
Qed.

(** ** The claims about the handlers *)

(** C6. An interrupt from the keyboard while the loop runs: every task
    on display is stopped and removed, the display is stopped, the pool
    is terminated, the loop ends as cancelled without raising anything,
    and the result file is what it was. *)
Theorem keyboard_interrupt_cancels_scan s rest :
  exists s' new,
    scan_loop (Raise KeyboardInterrupt :: rest) s = (Ok Cancelled, s')
    /\ trace s' = new ++ trace s
    /\ (forall id t, _tasks (progress s) !! id = Some t ->
          TaskStopped id ∈ new /\ TaskRemoved id (task_description t) ∈ new)
    /\ _tasks (progress s') = ∅
    /\ live_started (progress s') = false
    /\ pool_terminated s' = true
    /\ outfile s' = outfile s.
Proof.
  destruct (handler_clears true s)
    as (s' & new & Hh & Htasks & Hlive & Hpool & (Hout & _) & Htr & Hev).
  exists s', new. split; [|by auto].
  cbn [scan_loop]. rewrite iteration_of_try, try_block_raise. by rewrite Hh.
Qed.

(** C9, as amended.  An exception of the [try] block that is neither
    the start error of the proxy service, nor an interrupt, nor a
    [StopIteration] (the end of the iterator, or one that a worker
    raised) is an unexpected one: the last handler logs it and the loop
    goes on with the next item.  A scan whose items are results and such
    exceptions only runs through all of them and ends as completed. *)
Theorem unexpected_error_continues item s e s1 rest :
  unstopped item = true ->
  try_block (Some item) s = (Raise e, s1) ->
  let s' :=
    emit (LoggingException e)
      (emit (ConsolePrintException e)
         (emit (ProgressLog "[red]Unknown error![/red]") s1)) in
  unexpected e = true
  /\ iteration (Some item) s = (Ok Running, s')
  /\ scan_loop (item :: rest) s = scan_loop rest s'
  /\ forall items s0,
       forallb unstopped items = true ->
       (exists s2, running_after items s0 = Some s2)
       /\ exists s2, scan_loop items s0 = (Ok Completed, s2).
Proof.
  intros Hitem Htry s'.
  assert (He : unexpected e = true).
  { destruct item as [res|e0].
    - rewrite try_block_result in Htry. by apply process_any in Htry as (_ & ? & _).
    - rewrite try_block_raise in Htry. by simplify_eq. }
  assert (Hi : iteration (Some item) s = (Ok Running, s')).
  { rewrite iteration_of_try, Htry. by apply handler_unexpected. }
  split; [done|]. split; [done|]. split.
  - cbn [scan_loop]. by rewrite Hi.
  - intros items s0. apply unstopped_scan_completes.
Qed.

(** C8, as amended.  A line is appended for a result exactly when it is
    successful and its [try] block raised nothing, and then it is one
    line; in every other case the file is left as it was.  A result that
    went through has had its message printed. *)
Theorem line_written_iff_ok_and_processed res s :
  let r := (try_block (Some (Ok res)) s).1 in
  let s' := (iteration (Some (Ok res)) s).2 in
  (is_ok res = true /\ r = Ok tt ->
   exists line, outfile s' = outfile s ++ [line])
  /\ (is_ok res = false \/ r <> Ok tt -> outfile s' = outfile s)
  /\ (r = Ok tt -> Rprint (message res) ∈ trace s').
Proof.
  intros r s'. subst r s'. rewrite iteration_of_try, try_block_result.
  destruct (process res s) as [r s1] eqn:Hp.
  apply process_any in Hp as (_ & Hr). cbn [fst snd].
  destruct r as [[]|e].
  - destruct Hr as [Hpr Hout]. cbn. split; [|split; [|done]].
    + intros [Hok _]. by rewrite Hok in Hout.
    + intros [Hok|Hne]; [by rewrite Hok in Hout | done].
  - destruct Hr as (He & Hout & _). rewrite handler_unexpected by done. cbn.
    split; [by intros [_ ?]|]. split; [done|done].
Qed.


(** ** The counters *)

Lemma sum_scanned_insert s s' c n :
  cidr_scanned_ips s !! c = Some n ->
  cidr_scanned_ips s' = <[c := n + 1]> (cidr_scanned_ips s) ->
  sum_scanned s' = sum_scanned s + 1.
Proof.
  intros Hn Hs. unfold sum_scanned. rewrite Hs.
  rewrite <- insert_delete_eq.
  rewrite map_fold_insert_L; [|intros; lia|apply lookup_delete_eq].
  rewrite (map_fold_delete_L _ _ c n (cidr_scanned_ips s)); [lia|intros; lia|done].
Qed.

Lemma sum_scanned_start header cidr_list :
  sum_scanned (start_scan header cidr_list) = 0.
Proof.
  unfold sum_scanned. cbn [start_scan add_task snd cidr_scanned_ips emit set_progress].
  assert (Hz : forall c n, zero_counters cidr_list !! c = Some n -> n = 0).
  { intros c n [c' [? _]]%elem_of_list_to_map_2%list_elem_of_fmap. by simplify_eq. }
  revert Hz. generalize (zero_counters cidr_list). intros m.
  apply (map_fold_weak_ind
           (fun b m => (forall c n, m !! c = Some n -> n = 0) -> b = 0)).
  - done.
  - intros c n m' b Hc IH Hz.
    rewrite (Hz c n) by apply lookup_insert_eq.
    apply IH. intros c' n' Hc'. apply (Hz c').
    rewrite lookup_insert_ne; [done|]. by intros ->; simplify_eq.
Qed.

(** A round that goes on either reports an unknown error, or has
    counted one more result in both counters. *)
Lemma iteration_counts item s s' :
  well_formed s ->
  iteration (Some item) s = (Ok Running, s') ->
  (unknown_errors s' = unknown_errors s + 1
   /\ sum_scanned s' = sum_scanned s)
  \/ (unknown_errors s' = unknown_errors s
      /\ sum_scanned s' = sum_scanned s + 1
      /\ overall s' = S <$> overall s).
Proof.
  intros Hwf H. rewrite iteration_of_try in H. destruct item as [res|e].
  - rewrite try_block_result in H.
    destruct (process res s) as [r s1] eqn:Hp.
    apply process_spec in Hp
      as (_ & _ & _ & Hov & _ & _ & _ & Herr & _ & _ & Hr); [|done].
    destruct r as [[]|e].
    + destruct Hr as (n & tid & Hn & Hsc & _). simplify_eq. right.
      split; [done|]. split; [|done]. by eapply sum_scanned_insert.
    + destruct Hr as (He & Hsc & _). rewrite handler_unexpected in H by done.
      simplify_eq. left. unfold unknown_errors, sum_scanned in *. cbn.
      rewrite Herr, Hsc. split; [lia|done].
  - rewrite try_block_raise in H. destruct (unexpected e) eqn:He.
    + rewrite handler_unexpected in H by done. simplify_eq. left.
      unfold unknown_errors. cbn. split; [lia|done].
    + destruct e; try done.
      * destruct (handler_clears false s) as (? & ? & Hh & _).
        rewrite Hh in H. by simplify_eq.
      * destruct (handler_clears true s) as (? & ? & Hh & _).
        rewrite Hh in H. by simplify_eq.
Qed.

Lemma scan_counts items :
  forall s s',
    well_formed s ->
    running_after items s = Some s' ->
    unknown_errors s <= unknown_errors s'
    /\ (unknown_errors s' = unknown_errors s ->
        sum_scanned s' = sum_scanned s + length items
        /\ overall s' = (fun n => n + length items) <$> overall s).
Proof.
  induction items as [|item items IH]; intros s s' Hwf H.
  - cbn in H. simplify_eq. split; [lia|]. intros _. split; [cbn; lia|].
    destruct (overall s') as [k|]; cbn; [f_equal; lia|done].
  - cbn in H. destruct (iteration (Some item) s) as [[[]|] s1] eqn:Hi; try done.
    pose proof (iteration_well_formed _ _ _ Hwf Hi) as Hwf1.
    destruct (IH _ _ Hwf1 H) as [Hle Heq].
    destruct (iteration_counts _ _ _ Hwf Hi) as [[He1 _]|(He1 & Hs1 & Ho1)].
    + split; [lia|]. intros ?. lia.
    + split; [lia|]. intros He. destruct Heq as [Hs Ho]; [lia|].
      rewrite Hs, Hs1, Ho, Ho1. split; [cbn; lia|].
      destruct (overall s) as [k|]; cbn; [f_equal; lia|done].
Qed.

(** C7, as amended.  In a scan of [k] candidates that nothing stopped and
    in which no unknown error was reported, the counters of the subnets
    add up to [k] when the last result has been processed, the counter of
    all subnets is [k] then, and after [i] of the results it was [i]: it
    did not have the value [k] before. *)
Theorem counters_reach_k_without_errors header cidr_list items s :
  running_after items (start_scan header cidr_list) = Some s ->
  unknown_errors s = 0 ->
  sum_scanned s = length items
  /\ overall s = Some (length items)
  /\ forall i si,
       i <= length items ->
       running_after (take i items) (start_scan header cidr_list) = Some si ->
       overall si = Some i.
Proof.
  intros Hrun Herr.
  pose proof (start_scan_well_formed header cidr_list) as Hwf0.
  assert (Hov0 : overall (start_scan header cidr_list) = Some 0).
  { unfold overall. cbn. by rewrite lookup_insert_eq. }
  assert (Herr0 : unknown_errors (start_scan header cidr_list) = 0) by done.
  destruct (scan_counts _ _ _ Hwf0 Hrun) as [_ Heq].
  destruct Heq as [Hs Ho]; [lia|].
  rewrite sum_scanned_start in Hs. rewrite Hov0 in Ho.
  split; [done|]. split; [done|].
  intros i si Hi Hsi.
  destruct (scan_counts _ _ _ Hwf0 Hsi) as [_ Heqi].
  assert (Herri : unknown_errors si = 0).
  { rewrite <- (take_drop i items), running_after_app, Hsi in Hrun. cbn in Hrun.
    pose proof (running_after_well_formed _ _ _ Hwf0 Hsi) as Hwfi.
    destruct (scan_counts _ _ _ Hwfi Hrun) as [Hle _]. lia. }
  destruct Heqi as [_ Hoi]; [lia|].
  rewrite Hov0 in Hoi. rewrite Hoi. cbn. f_equal.
  rewrite length_take. lia.
Qed.


(** What a round does with a result, in a well-formed state. *)
Lemma iteration_result res s :
  well_formed s ->
  exists s',
    iteration (Some (Ok res)) s = (Ok Running, s')
    /\ overall s' = S <$> overall s
    /\ (forall c, creations c s' = creations c s +
          if decide (c = cidr res /\ cidr_scanned_ips s !! cidr res = Some 0)
          then 1 else 0).
Proof.
  intros Hwf. rewrite iteration_of_try, try_block_result.
  destruct (process res s) as [r s1] eqn:Hp.
  apply process_spec in Hp
    as (_ & _ & _ & Hov & _ & _ & _ & _ & Hcre & _ & Hr); [|done].
  destruct r as [[]|e]; [by eauto|].
  destruct Hr as (He & _). rewrite handler_unexpected by done.
  eexists. split; [done|]. split; [done|]. intros c.
  unfold creations in *. cbn. by rewrite Hcre.
Qed.

Lemma process_raises_without_download res s :
  is_ok res = true ->
  result res !! "download" = None ->
  exists e s', process res s = (Raise e, s').
Proof.
  intros Hok Hd. unfold process. unfold bind at 1.
  destruct (show_progress res s) as [[[]|e] s1]; [|by eauto].
  unfold bind at 1, report. rewrite Hok.
  unfold write_result. unfold bind at 1, result_at at 1.
  unfold bind at 1, subscript at 1. rewrite Hd. by eauto.
Qed.

(** C10. The counter of the task of all subnets advances by one for
    every result that the iterator hands over, as the first thing done
    for the result, whether or not the rest of the [try] block raises;
    when it raises, the counters of the subnets are left as they were,
    and when it does not, they add up to one more.  An exception that
    the iterator raises instead of a result does not advance the counter.
    So the counter of all subnets can be ahead of the sum of the counters
    of the subnets. *)
Theorem overall_counter_advances_first header cidr_list items s res :
  running_after items (start_scan header cidr_list) = Some s ->
  let r := (try_block (Some (Ok res)) s).1 in
  let s1 := (try_block (Some (Ok res)) s).2 in
  let s' := (iteration (Some (Ok res)) s).2 in
  is_Some (overall s)
  /\ overall s' = S <$> overall s
  /\ (exists new, trace s1 = new ++ TaskAdvanced all_ips_task :: trace s)
  /\ (r = Ok tt -> sum_scanned s' = sum_scanned s + 1)
  /\ (r <> Ok tt -> cidr_scanned_ips s' = cidr_scanned_ips s)
  /\ (forall e, unexpected e = true ->
        overall (iteration (Some (Raise e)) s).2 = overall s)
  /\ exists items2 s2 k,
       running_after items2 (start_scan header cidr_list) = Some s2
       /\ overall s2 = Some k
       /\ sum_scanned s2 < k.
Proof.
  intros Hrun r s1 s'. subst r s1 s'.
  pose proof (start_scan_well_formed header cidr_list) as Hwf0.
  pose proof (running_after_well_formed _ _ _ Hwf0 Hrun) as Hwf.
  rewrite iteration_of_try, try_block_result.
  destruct (process res s) as [r s1] eqn:Hp. cbn [fst snd].
  apply process_spec in Hp
    as (_ & _ & _ & Hov & _ & _ & Htr & _ & _ & _ & Hr); [|done].
  split.
  { destruct Hwf as [(t0 & n0 & Ht0 & _) _ _ _]. unfold overall. by rewrite Ht0. }
  split.
  { destruct r as [[]|e]; [done|]. destruct Hr as (He & _).
    by rewrite handler_unexpected. }
  split; [done|]. split.
  { intros ->. destruct Hr as (n & tid & Hn & Hsc & _). cbn.
    by eapply sum_scanned_insert. }
  split.
  { intros Hne. destruct r as [[]|e]; [done|]. destruct Hr as (He & Hsc & _).
    by rewrite handler_unexpected. }
  split.
  { intros e He. by rewrite iteration_of_try, try_block_raise, handler_unexpected. }
  set (res0 := mkProbeResult "" "" true "" ∅).
  destruct (process_raises_without_download res0 (start_scan header cidr_list))
    as (e & s2 & Hp0); [done|done|].
  pose proof Hp0 as Hp0'.
  apply process_spec in Hp0'
    as (_ & _ & _ & Hov0 & _ & _ & _ & _ & _ & _ & (He & Hsc0 & _)); [|done].
  eexists [Ok res0], _, 1. cbn [running_after].
  rewrite iteration_of_try, try_block_result, Hp0, handler_unexpected by done.
  split; [done|]. split.
  - unfold overall in *. cbn in *. rewrite Hov0. by rewrite lookup_insert_eq.
  - unfold sum_scanned. cbn [cidr_scanned_ips emit]. rewrite Hsc0.
    fold (sum_scanned (start_scan header cidr_list)).
    rewrite sum_scanned_start. lia.
Qed.

(** ** The life of the task of a subnet *)

Lemma block_inv_emit c e s :
  is_creation c e = false -> is_removal c e = false ->
  block_inv c s -> block_inv c (emit e s).
Proof.
  intros Hc Hr [Hnr Hinv]. split.
  - cbn. split; [by rewrite Hc|done].
  - intros n Hn. destruct (Hinv n Hn) as (Hle & Hrem & Hgone).
    split; [done|]. split; [|done]. unfold removals in *. cbn. by rewrite Hr.
Qed.

Lemma iteration_block_inv c item s s' :
  0 < num_ips c ->
  well_formed s ->
  block_inv c s ->
  iteration (Some item) s = (Ok Running, s') ->
  block_inv c s'.
Proof.
  intros Hpos Hwf Hinv H. rewrite iteration_of_try in H.
  assert (Hlog : forall e s1, block_inv c s1 ->
            block_inv c
              (emit (LoggingException e)
                 (emit (ConsolePrintException e)
                    (emit (ProgressLog "[red]Unknown error![/red]") s1)))).
  { intros e s1 H1. by do 3 (apply block_inv_emit; [done|done|]). }
  destruct item as [res|e].
  2:{ rewrite try_block_raise in H. destruct (unexpected e) eqn:He.
      - rewrite handler_unexpected in H by done. simplify_eq. by apply Hlog.
      - destruct e; try done.
        + destruct (handler_clears false s) as (? & ? & Hh & _).
          rewrite Hh in H. by simplify_eq.
        + destruct (handler_clears true s) as (? & ? & Hh & _).
          rewrite Hh in H. by simplify_eq. }
  rewrite try_block_result in H.
  destruct (process res s) as [r s1] eqn:Hp.
  apply process_spec in Hp
    as (Hwf1 & _ & _ & _ & Hnone & Hpt & _ & _ & _ & Hnever & Hr); [|done].
  destruct Hinv as [Hnr Hinv].
  assert (Hnr1 : never_recreated c (trace s1)).
  { apply Hnever; [done|]. intros -> Hz.
    destruct (Hinv 0 Hz) as (_ & Hrem & _).
    rewrite Hrem. rewrite decide_False; [done|lia]. }
  assert (Hkeep : forall n,
            cidr_scanned_ips s !! c = Some n -> n = num_ips c ->
            exists id, cidr_prog_tasks s1 !! c = Some id
                       /\ _tasks (progress s1) !! id = None).
  { intros n Hn ->. destruct (Hinv _ Hn) as (_ & _ & Hgone).
    destruct Hgone as (id & Hid & Hnone_id); [done|]. exists id.
    rewrite Hpt.
    - split; [done|]. apply Hnone; [|done].
      by apply (wf_prog_tasks _ _ _ Hwf _ _ Hid).
    - destruct (decide (c = cidr res)) as [->|]; [right|by left].
      rewrite Hn. intros ?. simplify_eq. lia. }
  destruct r as [[]|e].
  2:{ destruct Hr as (He & Hsc & _ & Hrem).
      rewrite handler_unexpected in H by done. simplify_eq. apply Hlog.
      split; [done|]. intros n Hn. rewrite Hsc in Hn.
      destruct (Hinv n Hn) as (Hle & Hrm & _).
      split; [done|]. split; [by rewrite Hrem|]. by apply Hkeep. }
  simplify_eq.
  destruct Hr as (m & tid & Hm & Hsc & Htid & Hold & Hgone & Hrem & _).
  split; [done|]. intros n Hn. rewrite Hsc in Hn.
  destruct (decide (c = cidr res)) as [->|Hne].
  - rewrite lookup_insert_eq in Hn. simplify_eq.
    destruct (Hinv m Hm) as (Hle & Hrm & Hgone_m).
    assert (Hlt : m < num_ips (cidr res)).
    { destruct (decide (m = num_ips (cidr res))) as [Heq|]; [|lia].
      destruct (Hgone_m Heq) as (id & Hid & Hnone_id).
      destruct Hold as [Hid' [t Ht]]; [lia|]. simplify_eq. }
    split; [lia|]. split.
    + rewrite Hrem, Hrm. rewrite decide_False by lia.
      destruct (decide (m + 1 = num_ips (cidr res))).
      * by rewrite decide_True.
      * rewrite decide_False; [done|]. by intros [_ ?].
    + intros Heq. by eauto.
  - rewrite lookup_insert_ne in Hn by done.
    destruct (Hinv n Hn) as (Hle & Hrm & _).
    split; [done|]. split.
    + rewrite Hrem, Hrm. rewrite (decide_False (P := _ /\ _)); [lia|].
      by intros [? _].
    + by apply Hkeep.
Qed.

(** The counter of a subnet never goes down, and goes up by at most one
    in a round. *)
Lemma iteration_scanned_grows c item s s' n :
  well_formed s ->
  iteration (Some item) s = (Ok Running, s') ->
  cidr_scanned_ips s !! c = Some n ->
  exists n', cidr_scanned_ips s' !! c = Some n' /\ n <= n' <= n + 1.
Proof.
  intros Hwf H Hn. rewrite iteration_of_try in H. destruct item as [res|e].
  - rewrite try_block_result in H.
    destruct (process res s) as [r s1] eqn:Hp.
    apply process_spec in Hp
      as (_ & _ & _ & _ & _ & _ & _ & _ & _ & _ & Hr); [|done].
    destruct r as [[]|e].
    + destruct Hr as (m & tid & Hm & Hsc & _). simplify_eq. rewrite Hsc.
      destruct (decide (c = cidr res)) as [->|Hne].
      * assert (m = n) as -> by congruence.
        rewrite lookup_insert_eq. exists (n + 1). split; [done|lia].
      * rewrite lookup_insert_ne by done. exists n. split; [done|lia].
    + destruct Hr as (He & Hsc & _). rewrite handler_unexpected in H by done.
      simplify_eq. cbn. rewrite Hsc. exists n. split; [done|lia].
  - rewrite try_block_raise in H. destruct (unexpected e) eqn:He.
    + rewrite handler_unexpected in H by done. simplify_eq.
      exists n. split; [done|lia].
    + destruct e; try done.
      * destruct (handler_clears false s) as (? & ? & Hh & _).
        rewrite Hh in H. by simplify_eq.
      * destruct (handler_clears true s) as (? & ? & Hh & _).
        rewrite Hh in H. by simplify_eq.
Qed.

Lemma running_after_block_inv c items :
  forall s s',
    0 < num_ips c ->
    well_formed s ->
    block_inv c s ->
    running_after items s = Some s' ->
    block_inv c s'.
Proof.
  induction items as [|item items IH]; intros s s' Hpos Hwf Hinv H.
  - cbn in H. by simplify_eq.
  - cbn in H. destruct (iteration (Some item) s) as [[[]|] s1] eqn:Hi; try done.
    eapply IH; [done| | |done].
    + by eapply iteration_well_formed.
    + by eapply iteration_block_inv.
Qed.

Lemma start_scan_block_inv c header cidr_list :
  0 < num_ips c -> block_inv c (start_scan header cidr_list).
Proof.
  intros Hpos. split; [by split|].
  intros n Hn. cbn in Hn.
  apply elem_of_list_to_map_2, list_elem_of_fmap in Hn as [c' [? _]].
  simplify_eq. split; [lia|]. split.
  - rewrite decide_False by lia. done.
  - lia.
Qed.

(** C4, as amended.  For a subnet with a positive number of addresses
    and at every point of the loop: the counter of the subnet is at most
    that number; the loop has removed a task of the subnet exactly once
    if the counter has reached the number, and not at all before; once
    it has, the task kept for the subnet is off the display; no task was
    ever added for the subnet after one was removed; and the next result
    of the subnet adds a task for it exactly when its counter is still
    0. *)
Theorem subnet_task_life header cidr_list items s c n :
  0 < num_ips c ->
  running_after items (start_scan header cidr_list) = Some s ->
  cidr_scanned_ips s !! c = Some n ->
  n <= num_ips c
  /\ removals c s = (if decide (n = num_ips c) then 1 else 0)
  /\ (n = num_ips c ->
      exists id, cidr_prog_tasks s !! c = Some id
                 /\ _tasks (progress s) !! id = None)
  /\ never_recreated c (trace s)
  /\ (forall res,
        cidr res = c ->
        creations c (iteration (Some (Ok res)) s).2 =
        creations c s + (if decide (n = 0) then 1 else 0))
  /\ forall item s',
       iteration (Some item) s = (Ok Running, s') ->
       exists n', cidr_scanned_ips s' !! c = Some n' /\ n <= n' <= n + 1.
Proof.
  intros Hpos Hrun Hn.
  pose proof (start_scan_well_formed header cidr_list) as Hwf0.
  pose proof (running_after_well_formed _ _ _ Hwf0 Hrun) as Hwf.
  destruct (running_after_block_inv c items _ _ Hpos Hwf0
              (start_scan_block_inv c header cidr_list Hpos) Hrun)
    as [Hnr Hinv].
  destruct (Hinv n Hn) as (Hle & Hrem & Hgone).
  do 4 (split; [done|]). split.
  - intros res <-.
    destruct (iteration_result res s Hwf) as (s' & Hi & _ & Hcre).
    rewrite Hi. cbn [snd]. rewrite Hcre, Hn.
    destruct (decide (n = 0)) as [->|Hne].
    + by rewrite decide_True.
    + rewrite decide_False; [done|]. intros [_ ?]. by simplify_eq.
  - intros item s' Hi. by eapply iteration_scanned_grows.
Qed.


(** ** The line of a successful result *)

Lemma result_at_ok res direction key s l s' :
  result_at res direction key s = (Ok l, s') ->
  exists d, result res !! direction = Some d /\ d !! key = Some l.
Proof.
  unfold result_at, bind, subscript, ret, raise.
  destruct (result res !! direction) as [d|]; [|done].
  cbn. destruct (d !! key) as [l'|] eqn:Hl; [|done].
  cbn. intros ?. simplify_eq. by eauto.
Qed.

Lemma upload_figure_off f res key s x s' :
  do_upload_test test_config = false ->
  upload_figure test_config f res key s = (Ok x, s') ->
  x = NOT_MEASURED.
Proof. unfold upload_figure. intros ->. unfold ret. congruence. Qed.

(** As [pure_step], keeping what the statement returned. *)
Ltac pure_step_ok H Hm :=
  lazymatch type of H with
  | bind ?m ?k ?s = _ =>
      let Hp := fresh "Hp" in
      assert (Hp : pure m) by prove_pure;
      apply (bind_pure m k s _ _ Hp) in H;
      clear Hp;
      destruct H as [(? & Hm & H)|(? & ? & ? & ?)]; [|done]
  end.

Lemma write_result_ok res s s' :
  do_upload_test test_config = false ->
  write_result res s = (Ok tt, s') ->
  exists mean_down_speed mean_down_latency down_mean_jitter
         down up down_speed up_speed down_latency up_latency,
    result res !! "download" = Some down
    /\ down !! "speed" = Some down_speed
    /\ down !! "latency" = Some down_latency
    /\ result res !! "upload" = Some up
    /\ up !! "speed" = Some up_speed
    /\ up !! "latency" = Some up_latency
    /\ outfile s' = outfile s ++
         [record_line str_num
            ([PyStr (ip res); PyNum mean_down_speed; PyNum NOT_MEASURED;
              PyNum mean_down_latency; PyNum NOT_MEASURED;
              PyNum down_mean_jitter; PyNum NOT_MEASURED]
             ++ (PyNum <$> down_speed) ++ (PyNum <$> up_speed)
             ++ (PyNum <$> down_latency) ++ (PyNum <$> up_latency))].
Proof.
  intros Hoff H. unfold write_result in H.
  pure_step_ok H H1. pure_step_ok H H2. pure_step_ok H H3.
  pure_step_ok H H4. pure_step_ok H H5. pure_step_ok H H6.
  pure_step_ok H H7. pure_step_ok H H8. pure_step_ok H H9.
  apply (upload_figure_off _ _ _ _ _ _ Hoff) in H3, H6, H9. subst.
  unfold bind at 1 in H. cbn [rprint modify] in H.
  pure_step_ok H Hparts.
  cbv [outfile_write modify] in H. simplify_eq. cbn [outfile].
  unfold res_parts_of in Hparts.
  pure_step_ok Hparts Hds. pure_step_ok Hparts Hus.
  pure_step_ok Hparts Hdl. pure_step_ok Hparts Hul.
  unfold ret in Hparts. simplify_eq.
  apply result_at_ok in Hds as (down & Hdown & Hds).
  apply result_at_ok in Hdl as (down' & Hdown' & Hdl).
  apply result_at_ok in Hus as (up & Hup & Hus).
  apply result_at_ok in Hul as (up' & Hup' & Hul).
  simplify_eq. rewrite <- !(assoc_L (++)).
  by eauto 20.
Qed.

Lemma length_numbered name n : length (numbered name n) = n.
Proof. unfold numbered. by rewrite length_fmap, length_seq. Qed.

Lemma numbered_download_not_upload what n title :
  title ∈ numbered ("download_" +:+ what) n -> is_upload_title title = false.
Proof. unfold numbered. intros (i & -> & _)%list_elem_of_fmap. done. Qed.

Lemma elem_of_numbered name n title :
  title ∈ numbered name n -> exists i, title = name +:+ "_" +:+ i.
Proof. unfold numbered. intros (i & -> & _)%list_elem_of_fmap. by eauto. Qed.

(** The cell under the title of a try is the sample of the try. *)
Lemma numbered_zip_lookup name n (l : list number) i sample :
  length l = n ->
  l !! i = Some sample ->
  (name +:+ "_" +:+ pretty (i + 1), PyNum sample)
    ∈ zip (numbered name n) (PyNum <$> l).
Proof.
  intros Hl Hi. apply (list_elem_of_lookup_2 _ i). unfold numbered.
  rewrite lookup_zip_with, !list_lookup_fmap, Hi.
  rewrite lookup_seq_lt by (apply lookup_lt_Some in Hi; lia). done.
Qed.



(** ** Further facts: the loop always ends by [break] *)


(** ** Further facts: the result file only grows *)

Lemma handler_keeps_file e s : outfile (handler e s).2 = outfile s.
Proof.
  assert (He : unexpected e = true \/ e = StopIteration
               \/ e = KeyboardInterrupt
               \/ exists msg, e = StartProxyServiceError msg).
  { destruct e; cbn; by eauto. }
  destruct He as [He|[->|[->|[msg ->]]]].
  - by rewrite handler_unexpected.
  - destruct (handler_clears false s)
      as (s' & new & Hh & _ & _ & _ & (Ho & _) & _).
    change (handler StopIteration s = (Ok Completed, s')) in Hh.
    by rewrite Hh.
  - destruct (handler_clears true s)
      as (s' & new & Hh & _ & _ & _ & (Ho & _) & _).
    change (handler KeyboardInterrupt s = (Ok Cancelled, s')) in Hh.
    by rewrite Hh.
  - by rewrite handler_fatal.
Qed.

Lemma iteration_appends item s :
  exists lines,
    outfile (iteration item s).2 = outfile s ++ lines
    /\ length lines <=
       match item with
       | Some i => if is_success i then 1 else 0
       | None => 0
       end.
Proof.
  rewrite iteration_of_try. destruct item as [[res|e]|].
  - rewrite try_block_result.
    destruct (process res s) as [[[]|e] s1] eqn:Hp;
      apply process_any in Hp as (_ & Hr); cbn [snd is_success].
    + destruct Hr as [_ Hout]. destruct (is_ok res).
      * destruct Hout as [line Hout]. exists [line]. split; [done|cbn; lia].
      * exists []. rewrite (right_id_L [] (++)). split; [done|cbn; lia].
    + destruct Hr as (_ & Hout & _). rewrite handler_keeps_file, Hout.
      exists []. rewrite (right_id_L [] (++)).
      split; [done|cbn; destruct (is_ok res); lia].
  - rewrite try_block_raise, handler_keeps_file.
    exists []. rewrite (right_id_L [] (++)). split; [done|cbn; lia].
  - change (try_block None s) with (@Raise unit StopIteration, s).
    cbn iota. rewrite handler_keeps_file.
    exists []. rewrite (right_id_L [] (++)). split; [done|cbn; lia].
Qed.

Lemma scan_loop_appends items :
  forall s,
    exists lines,
      outfile (scan_loop items s).2 = outfile s ++ lines
      /\ length lines <= count_items is_success items.
Proof.
  induction items as [|item items IH]; intros s; cbn [scan_loop].
  - destruct (iteration_appends None s) as (lines & Hl & Hlen).
    exists lines. split; [done|]. cbn. lia.
  - destruct (iteration_appends (Some item) s) as (lines & Hl & Hlen).
    destruct (iteration (Some item) s) as [r s1] eqn:Hi. cbn [snd] in Hl.
    assert (Hstop : outfile (r, s1).2 = outfile s ++ lines
                    /\ length lines <= count_items is_success (item :: items)).
    { split; [done|]. unfold count_items. cbn. lia. }
    destruct r as [[]|]; try by eauto.
    destruct (IH s1) as (lines' & Hl' & Hlen').
    exists (lines ++ lines'). rewrite Hl', Hl, (assoc_L (++)).
    split; [done|]. rewrite length_app. unfold count_items in *. cbn. lia.
Qed.

(** X2.  The scan only appends to the result file: what was in the file
    stays at its head, whichever way the loop ends, and at most one line
    is added for each successful result among the items.  In a scan from
    its start the header is therefore the first line to the end. *)
Theorem result_file_only_grows items :
  (forall s,
     exists lines,
       outfile (scan_loop items s).2 = outfile s ++ lines
       /\ length lines <= count_items is_success items)
  /\ forall header cidr_list,
       exists lines,
         outfile (scan_loop items (start_scan header cidr_list)).2
           = header :: lines
         /\ length lines <= count_items is_success items.
Proof.
  split; [apply scan_loop_appends|]. intros header cidr_list.
  destruct (scan_loop_appends items (start_scan header cidr_list))
    as (lines & Hl & Hlen).
  by exists lines.
Qed.

(** ** Further facts: the counters of the subnets *)

Lemma zero_counters_lookup cidr_list c :
  zero_counters cidr_list !! c = (if decide (c ∈ cidr_list) then Some 0 else None).
Proof.
  unfold zero_counters. case_decide as Hc.
  - apply elem_of_list_to_map_1'.
    + intros n [c' [? _]]%list_elem_of_fmap. by simplify_eq.
    + apply list_elem_of_fmap. by exists c.
  - apply not_elem_of_list_to_map_1. rewrite <- list_fmap_compose.
    intros [c' [-> ?]]%list_elem_of_fmap. done.
Qed.

Lemma iteration_keeps_keys item s s' c :
  well_formed s ->
  iteration (Some item) s = (Ok Running, s') ->
  is_Some (cidr_scanned_ips s' !! c) <-> is_Some (cidr_scanned_ips s !! c).
Proof.
  intros Hwf H. rewrite iteration_of_try in H. destruct item as [res|e].
  - rewrite try_block_result in H.
    destruct (process res s) as [r s1] eqn:Hp.
    apply process_spec in Hp
      as (_ & _ & _ & _ & _ & _ & _ & _ & _ & _ & Hr); [|done].
    destruct r as [[]|e].
    + destruct Hr as (m & tid & Hm & Hsc & _). simplify_eq. rewrite Hsc.
      rewrite lookup_insert_is_Some.
      split; [intros [<-|[_ ?]]; [by rewrite Hm|done]|].
      intros Hc. destruct (decide (cidr res = c)); by auto.
    + destruct Hr as (He & Hsc & _). rewrite handler_unexpected in H by done.
      simplify_eq. cbn. by rewrite Hsc.
  - rewrite try_block_raise in H. destruct (unexpected e) eqn:He.
    + rewrite handler_unexpected in H by done. by simplify_eq.
    + destruct e; try done.
      * destruct (handler_clears false s) as (? & ? & Hh & _).
        rewrite Hh in H. by simplify_eq.
      * destruct (handler_clears true s) as (? & ? & Hh & _).
        rewrite Hh in H. by simplify_eq.
Qed.

Lemma running_after_keeps_keys items c :
  forall s s',
    well_formed s ->
    running_after items s = Some s' ->
    is_Some (cidr_scanned_ips s' !! c) <-> is_Some (cidr_scanned_ips s !! c).
Proof.
  induction items as [|item items IH]; intros s s' Hwf H.
  - cbn in H. by simplify_eq.
  - cbn in H. destruct (iteration (Some item) s) as [[[]|] s1] eqn:Hi; try done.
    rewrite (IH s1 s'); [|by eapply iteration_well_formed|done].
    by apply (iteration_keeps_keys _ _ _ _ Hwf Hi).
Qed.

Lemma start_scan_keys header cidr_list c :
  is_Some (cidr_scanned_ips (start_scan header cidr_list) !! c)
  <-> c ∈ cidr_list.
Proof.
  cbn. rewrite zero_counters_lookup. destruct (decide (c ∈ cidr_list)).
  - by split.
  - split; [by intros [? ?]|done].
Qed.

(** X3.  The loop never adds a subnet to [cidr_scanned_ips] and never
    takes one out: at every point of the loop its keys are the subnets
    of [cidr_list], a subnet listed more than once having one counter. *)
Theorem scanned_keys_are_the_subnets header cidr_list items s c :
  running_after items (start_scan header cidr_list) = Some s ->
  is_Some (cidr_scanned_ips s !! c) <-> c ∈ cidr_list.
Proof.
  intros Hrun.
  rewrite (running_after_keeps_keys items c _ _
             (start_scan_well_formed header cidr_list) Hrun).
  apply start_scan_keys.
Qed.

Lemma show_progress_missing_counter res s t0 :
  _tasks (progress s) !! all_ips_task = Some t0 ->
  cidr_scanned_ips s !! cidr res = None ->
  show_progress res s =
    (Raise (KeyError (cidr res)),
     emit (TaskAdvanced all_ips_task)
       (with_tasks <[all_ips_task := advanced t0]> s)).
Proof.
  intros Ht0 Hn. unfold show_progress. unfold bind at 1.
  rewrite update_advance_eq, Ht0.
  cbv [bind gets subscript ret raise modify].
  cbn [cidr_scanned_ips emit with_tasks set_progress]. by rewrite Hn.
Qed.

Lemma show_progress_removed_task res s t0 n id :
  _tasks (progress s) !! all_ips_task = Some t0 ->
  cidr_scanned_ips s !! cidr res = Some n ->
  n <> 0 ->
  cidr_prog_tasks s !! cidr res = Some id ->
  id <> all_ips_task ->
  _tasks (progress s) !! id = None ->
  show_progress res s =
    (Raise (KeyError (pretty id)),
     emit (TaskAdvanced all_ips_task)
       (with_tasks <[all_ips_task := advanced t0]> s)).
Proof.
  intros Ht0 Hn Hnz Hid Hne Hnone. unfold show_progress. unfold bind at 1.
  rewrite update_advance_eq, Ht0.
  cbv [bind gets subscript ret raise modify].
  cbn [cidr_scanned_ips emit with_tasks set_progress]. rewrite Hn.
  apply Nat.eqb_neq in Hnz. rewrite Hnz.
  change (cidr_prog_tasks (emit _ (with_tasks _ s)))
    with (cidr_prog_tasks s).
  rewrite Hid, update_advance_eq.
  change (_tasks (progress (emit _ (with_tasks ?f s))))
    with (f (_tasks (progress s))).
  by rewrite lookup_insert_ne, Hnone.
Qed.

Lemma process_raises_in_show_progress res s e s1 :
  show_progress res s = (Raise e, s1) -> process res s = (Raise e, s1).
Proof. intros H. unfold process. unfold bind at 1. by rewrite H. Qed.

(** X4.  A result of a subnet that is not in [cidr_list] raises
    [KeyError] on the counter of the subnet: the counter of all subnets
    has advanced, and nothing else has happened -- no task, no line, no
    counter of a subnet. *)
Theorem result_of_unlisted_subnet header cidr_list items s res :
  running_after items (start_scan header cidr_list) = Some s ->
  cidr res ∉ cidr_list ->
  exists s1,
    try_block (Some (Ok res)) s = (Raise (KeyError (cidr res)), s1)
    /\ trace s1 = TaskAdvanced all_ips_task :: trace s
    /\ overall s1 = S <$> overall s
    /\ outfile s1 = outfile s
    /\ cidr_scanned_ips s1 = cidr_scanned_ips s
    /\ cidr_prog_tasks s1 = cidr_prog_tasks s.
Proof.
  intros Hrun Hc.
  pose proof (running_after_well_formed _ _ _
                (start_scan_well_formed header cidr_list) Hrun) as Hwf.
  destruct (wf_all_ips _ _ _ Hwf) as (t0 & n0 & Ht0 & _).
  assert (Hn : cidr_scanned_ips s !! cidr res = None).
  { apply eq_None_not_Some.
    rewrite (running_after_keeps_keys items (cidr res) _ _
               (start_scan_well_formed header cidr_list) Hrun).
    by rewrite start_scan_keys. }
  eexists. split.
  { rewrite try_block_result. apply process_raises_in_show_progress.
    by apply show_progress_missing_counter. }
  split; [done|]. split; [|done].
  unfold overall. cbn. rewrite lookup_insert_eq, Ht0. cbn. f_equal. lia.
Qed.

(** X5.  Once the counter of a subnet has reached the number of its
    addresses, a further result of the subnet (the subnet was listed
    twice, say) raises [KeyError] when its task, which was removed, is to
    advance: the result is not counted and no line is written for it,
    successful or not. *)
Theorem result_after_subnet_is_done header cidr_list items s res :
  0 < num_ips (cidr res) ->
  running_after items (start_scan header cidr_list) = Some s ->
  cidr_scanned_ips s !! cidr res = Some (num_ips (cidr res)) ->
  exists id s1,
    cidr_prog_tasks s !! cidr res = Some id
    /\ try_block (Some (Ok res)) s = (Raise (KeyError (pretty id)), s1)
    /\ trace s1 = TaskAdvanced all_ips_task :: trace s
    /\ overall s1 = S <$> overall s
    /\ outfile s1 = outfile s
    /\ cidr_scanned_ips s1 = cidr_scanned_ips s.
Proof.
  intros Hpos Hrun Hn.
  pose proof (start_scan_well_formed header cidr_list) as Hwf0.
  pose proof (running_after_well_formed _ _ _ Hwf0 Hrun) as Hwf.
  destruct (wf_all_ips _ _ _ Hwf) as (t0 & n0 & Ht0 & _).
  destruct (running_after_block_inv (cidr res) items _ _ Hpos Hwf0
              (start_scan_block_inv _ header cidr_list Hpos) Hrun)
    as [_ Hinv].
  destruct (Hinv _ Hn) as (_ & _ & Hgone).
  destruct Hgone as (id & Hid & Hnone); [done|].
  pose proof (wf_prog_tasks _ _ _ Hwf _ _ Hid) as Hrange.
  exists id. eexists. split; [done|]. split.
  { rewrite try_block_result. apply process_raises_in_show_progress.
    eapply show_progress_removed_task; [done|done|lia|done|lia|done]. }
  split; [done|]. split; [|done].
  unfold overall. cbn. rewrite lookup_insert_eq, Ht0. cbn. f_equal. lia.
Qed.

(** ** Further facts: every item is counted or reported *)

Lemma iteration_raise_running e s s' :
  iteration (Some (Raise e)) s = (Ok Running, s') ->
  unexpected e = true
  /\ s' = emit (LoggingException e)
            (emit (ConsolePrintException e)
               (emit (ProgressLog "[red]Unknown error![/red]") s)).
Proof.
  intros H. rewrite iteration_of_try, try_block_raise in H.
  destruct (unexpected e) eqn:He.
  - rewrite handler_unexpected in H by done. by simplify_eq.
  - destruct e; try done.
    + destruct (handler_clears false s) as (? & ? & Hh & _).
      rewrite Hh in H. by simplify_eq.
    + destruct (handler_clears true s) as (? & ? & Hh & _).
      rewrite Hh in H. by simplify_eq.
Qed.

Lemma iteration_overall item s s' :
  well_formed s ->
  iteration (Some item) s = (Ok Running, s') ->
  overall s' = (if is_result item then S <$> overall s else overall s).
Proof.
  intros Hwf H. destruct item as [res|e].
  - rewrite iteration_of_try, try_block_result in H.
    destruct (process res s) as [r s1] eqn:Hp.
    apply process_spec in Hp
      as (_ & _ & _ & Hov & _ & _ & _ & _ & _ & _ & Hr); [|done].
    destruct r as [[]|e]; [by simplify_eq|].
    destruct Hr as [He _]. rewrite handler_unexpected in H by done.
    simplify_eq. exact Hov.
  - by apply iteration_raise_running in H as [_ ->].
Qed.

Lemma well_formed_overall s : well_formed s -> is_Some (overall s).
Proof.
  intros Hwf. destruct (wf_all_ips _ _ _ Hwf) as (t & n & Ht & _).
  unfold overall. rewrite Ht. by eexists.
Qed.

Lemma count_items_cons f item items :
  count_items f (item :: items)
    = (if f item then 1 else 0) + count_items f items.
Proof. done. Qed.

Lemma scan_accounts items :
  forall s s',
    well_formed s ->
    running_after items s = Some s' ->
    sum_scanned s' + unknown_errors s'
      = sum_scanned s + unknown_errors s + length items
    /\ overall s' = (fun n => n + count_items is_result items) <$> overall s
    /\ sum_scanned s' <= sum_scanned s + count_items is_result items.
Proof.
  induction items as [|item items IH]; intros s s' Hwf H.
  - cbn in H. simplify_eq. split; [cbn; lia|]. split; [|cbn; lia].
    destruct (overall s') as [k|]; cbn; [f_equal; lia|done].
  - cbn in H. destruct (iteration (Some item) s) as [[[]|] s1] eqn:Hi; try done.
    pose proof (iteration_well_formed _ _ _ Hwf Hi) as Hwf1.
    destruct (IH _ _ Hwf1 H) as (Hsum & Hov & Hle).
    pose proof (iteration_overall _ _ _ Hwf Hi) as Hov1.
    destruct (well_formed_overall s Hwf) as [k Hk].
    assert (Hitem : sum_scanned s1 + unknown_errors s1
                      = sum_scanned s + unknown_errors s + 1
                    /\ sum_scanned s1
                       <= sum_scanned s + if is_result item then 1 else 0).
    { destruct (iteration_counts _ _ _ Hwf Hi) as [[He Hs]|(He & Hs & Ho)].
      - split; lia.
      - split; [lia|]. destruct (is_result item); [lia|].
        rewrite Hov1, Hk in Ho. cbn in Ho. simplify_eq. lia. }
    destruct Hitem as [Hsum1 Hle1].
    rewrite count_items_cons. cbn [length].
    split; [lia|]. split; [|destruct (is_result item); lia].
    rewrite Hov, Hov1, Hk. destruct (is_result item); cbn; f_equal; lia.
Qed.

(** X6.  While the loop runs, every item the iterator has handed over is
    either counted for its subnet or reported as an unknown error, and
    never both: the counters of the subnets and the unknown errors add
    up to the number of items.  The counter of all subnets is the number
    of results among the items, whether their processing raised or not,
    so the counters of the subnets never add up to more than it. *)
Theorem every_item_counted_or_reported header cidr_list items s :
  running_after items (start_scan header cidr_list) = Some s ->
  sum_scanned s + unknown_errors s = length items
  /\ overall s = Some (count_items is_result items)
  /\ sum_scanned s <= count_items is_result items.
Proof.
  intros Hrun.
  destruct (scan_accounts _ _ _ (start_scan_well_formed header cidr_list) Hrun)
    as (Hsum & Hov & Hle).
  rewrite sum_scanned_start in Hsum, Hle.
  assert (Herr0 : unknown_errors (start_scan header cidr_list) = 0) by done.
  assert (Hov0 : overall (start_scan header cidr_list) = Some 0).
  { unfold overall. cbn. by rewrite lookup_insert_eq. }
  rewrite Hov0 in Hov. split; [lia|]. by split.
Qed.

(** ** Further facts: the end of the iterator *)

Lemma iteration_keeps_pool item s s' :
  iteration (Some item) s = (Ok Running, s') ->
  pool_terminated s' = pool_terminated s.
Proof.
  intros H. destruct item as [res|e].
  - rewrite iteration_of_try, try_block_result in H.
    destruct (process res s) as [r s1] eqn:Hp.
    apply process_any in Hp as (Hpool & Hr).
    destruct r as [[]|e]; [by simplify_eq|].
    destruct Hr as [He _]. rewrite handler_unexpected in H by done.
    by simplify_eq.
  - by apply iteration_raise_running in H as [_ ->].
Qed.

Lemma running_after_keeps_pool items :
  forall s s',
    running_after items s = Some s' ->
    pool_terminated s' = pool_terminated s.
Proof.
  induction items as [|item items IH]; intros s s' H.
  - cbn in H. by simplify_eq.
  - cbn in H. destruct (iteration (Some item) s) as [[[]|] s1] eqn:Hi; try done.
    rewrite (IH _ _ H). by eapply iteration_keeps_pool.
Qed.

(** X7.  A scan that nothing stops runs through all its items, and the
    end of the iterator then completes it: every task that is still on
    display is stopped and removed, the display is stopped, and the
    result file and the counters of the subnets stay as the last item
    left them.  The loop itself never terminates the pool on this way
    out. *)
Theorem end_of_iterator_completes_scan items s :
  forallb unstopped items = true ->
  exists s1 s' new,
    running_after items s = Some s1
    /\ scan_loop items s = (Ok Completed, s')
    /\ trace s' = new ++ trace s1
    /\ (forall id t, _tasks (progress s1) !! id = Some t ->
          TaskStopped id ∈ new /\ TaskRemoved id (task_description t) ∈ new)
    /\ _tasks (progress s') = ∅
    /\ live_started (progress s') = false
    /\ pool_terminated s' = pool_terminated s
    /\ same_results s1 s'.
Proof.
  intros Hall.
  destruct (unstopped_scan_completes items s Hall) as [[s1 Hrun] _].
  destruct (handler_clears false s1)
    as (s' & new & Hh & Htasks & Hlive & Hpool & Hsame & Htr & Hev).
  exists s1, s', new. split; [done|]. split.
  { rewrite <- (right_id_L [] (++) items).
    rewrite (scan_loop_app _ _ _ _ Hrun). exact Hh. }
  do 4 (split; [done|]). split; [|done].
  rewrite Hpool. by eapply running_after_keeps_pool.
Qed.

(** ** Further facts: the cells of a line *)

Lemma upload_figure_on f res key s x s' :
  do_upload_test test_config = true ->
  upload_figure test_config f res key s = (Ok x, s') ->
  exists d l,
    result res !! "upload" = Some d /\ d !! key = Some l
    /\ f l s = (Ok x, s').
Proof.
  unfold upload_figure. intros -> H. unfold bind in H.
  destruct (pure_result_at res "upload" key) as (r & Hr & _).
  pose proof (Hr s) as Hl. rewrite Hl in H. destruct r as [l|e]; [|done].
  apply result_at_ok in Hl as (d & Hd & Hl). by eauto.
Qed.

Lemma statistics_mean_ok data s x s' :
  statistics_mean data s = (Ok x, s') -> data <> [].
Proof. by intros H ->. Qed.

(** X8.  The line written for a successful result, with or without the
    upload test.  All four lists of the result are there, those of the
    upload too when upload is not tested; both download lists have a
    sample, and so have the upload lists when upload is tested.  The
    line has the address, the two speed means, the two latency means
    and the two jitters, then the samples as the result has them:
    download speeds, upload speeds, download latencies, upload
    latencies.  The means are those of [statistics.mean] and the jitters
    those of [mean_jitter], each on its own list: the download jitter on
    the download latencies, the upload jitter on the upload latencies.
    Without the upload test the three upload figures are the sentinel.
    The message of the result was printed before. *)
Theorem written_line_cells res s s' :
  write_result res s = (Ok tt, s') ->
  exists down up down_speed up_speed down_latency up_latency
         mean_down_speed mean_up_speed mean_down_latency mean_up_latency
         down_mean_jitter up_mean_jitter,
    result res !! "download" = Some down
    /\ down !! "speed" = Some down_speed
    /\ down !! "latency" = Some down_latency
    /\ result res !! "upload" = Some up
    /\ up !! "speed" = Some up_speed
    /\ up !! "latency" = Some up_latency
    /\ down_speed <> [] /\ down_latency <> []
    /\ statistics_mean down_speed s = (Ok mean_down_speed, s)
    /\ statistics_mean down_latency s = (Ok mean_down_latency, s)
    /\ mean_jitter down_latency s = (Ok down_mean_jitter, s)
    /\ (if do_upload_test test_config then
          up_speed <> [] /\ up_latency <> []
          /\ statistics_mean up_speed s = (Ok mean_up_speed, s)
          /\ statistics_mean up_latency s = (Ok mean_up_latency, s)
          /\ mean_jitter up_latency s = (Ok up_mean_jitter, s)
        else
          mean_up_speed = NOT_MEASURED /\ mean_up_latency = NOT_MEASURED
          /\ up_mean_jitter = NOT_MEASURED)
    /\ outfile s' = outfile s ++
         [record_line str_num
            ([PyStr (ip res); PyNum mean_down_speed; PyNum mean_up_speed;
              PyNum mean_down_latency; PyNum mean_up_latency;
              PyNum down_mean_jitter; PyNum up_mean_jitter]
             ++ (PyNum <$> down_speed) ++ (PyNum <$> up_speed)
             ++ (PyNum <$> down_latency) ++ (PyNum <$> up_latency))]
    /\ trace s' = Rprint (message res) :: trace s.
Proof.
  intros H. unfold write_result in H.
  pure_step_ok H H1. pure_step_ok H H2. pure_step_ok H H3.
  pure_step_ok H H4. pure_step_ok H H5. pure_step_ok H H6.
  pure_step_ok H H7. pure_step_ok H H8. pure_step_ok H H9.
  unfold bind at 1 in H. cbn [rprint modify] in H.
  pure_step_ok H Hparts.
  cbv [outfile_write modify] in H. simplify_eq. cbn [outfile trace emit].
  unfold res_parts_of in Hparts.
  pure_step_ok Hparts Hds. pure_step_ok Hparts Hus.
  pure_step_ok Hparts Hdl. pure_step_ok Hparts Hul.
  unfold ret in Hparts. simplify_eq.
  apply result_at_ok in Hds as (down & Hdown & Hds).
  apply result_at_ok in Hdl as (down' & Hdown' & Hdl).
  apply result_at_ok in Hus as (up & Hup & Hus).
  apply result_at_ok in Hul as (up' & Hup' & Hul).
  apply result_at_ok in H1 as (down1 & Hdown1 & Hdl1).
  apply result_at_ok in H4 as (down4 & Hdown4 & Hds4).
  apply result_at_ok in H7 as (down7 & Hdown7 & Hdl7).
  simplify_eq. rewrite <- !(assoc_L (++)).
  do 12 eexists. do 6 (split; [done|]).
  split; [by eapply statistics_mean_ok|].
  split; [by eapply statistics_mean_ok|].
  do 3 (split; [done|]). split; [|by split].
  destruct (do_upload_test test_config) eqn:Hup_test.
  - apply (upload_figure_on _ _ _ _ _ _ Hup_test) in H3 as (? & ? & ? & ? & H3).
    apply (upload_figure_on _ _ _ _ _ _ Hup_test) in H6 as (? & ? & ? & ? & H6).
    apply (upload_figure_on _ _ _ _ _ _ Hup_test) in H9 as (? & ? & ? & ? & H9).
    simplify_eq.
    split; [by eapply statistics_mean_ok|].
    split; [by eapply statistics_mean_ok|]. by split.
  - apply (upload_figure_off _ _ _ _ _ _ Hup_test) in H3, H6, H9. by subst.
Qed.

(** ** Further facts: the total of the task of all subnets *)

Lemma show_progress_total res s r s' :
  well_formed s ->
  show_progress res s = (r, s') ->
  overall_total s' = overall_total s.
Proof.
  intros Hwf H. unfold show_progress in H. unfold bind at 1 in H.
  rewrite update_advance_eq in H.
  destruct (_tasks (progress s) !! all_ips_task) as [t0|] eqn:Ht0;
    [|by simplify_eq].
  pose proof (wf_fresh _ _ _ Hwf all_ips_task (mk_is_Some _ _ Ht0)) as Hfresh.
  set (s1 := emit (TaskAdvanced all_ips_task)
               (with_tasks <[all_ips_task:=advanced t0]> s)) in *.
  assert (H1 : overall_total s1 = overall_total s).
  { unfold overall_total. cbn. by rewrite lookup_insert_eq, Ht0. }
  rewrite <- H1.
  cbv [bind gets subscript ret raise modify] in H.
  change (cidr_scanned_ips s1) with (cidr_scanned_ips s) in H.
  destruct (cidr_scanned_ips s !! cidr res) as [n|] eqn:Hn; [|by simplify_eq].
  destruct (n =? 0).
  - unfold add_task in H.
    cbn [cidr_prog_tasks set_cidr_prog_tasks emit set_progress] in H.
    rewrite lookup_insert_eq in H. rewrite update_advance_eq in H.
    cbn [_tasks progress set_cidr_prog_tasks emit set_progress] in H.
    rewrite lookup_insert_eq in H. simplify_eq.
    unfold overall_total. cbn.
    by rewrite !lookup_insert_ne by (unfold all_ips_task in *; lia).
  - change (cidr_prog_tasks s1) with (cidr_prog_tasks s) in H.
    destruct (cidr_prog_tasks s !! cidr res) as [tid|] eqn:Htid;
      [|by simplify_eq].
    pose proof (wf_prog_tasks _ _ _ Hwf _ _ Htid) as Hrange.
    rewrite update_advance_eq in H.
    destruct (_tasks (progress s1) !! tid) as [t|] eqn:Ht; [|by simplify_eq].
    simplify_eq. unfold overall_total. cbn -[s1].
    by rewrite lookup_insert_ne by lia.
Qed.

Lemma process_total res s r s' :
  well_formed s ->
  process res s = (r, s') ->
  overall_total s' = overall_total s.
Proof.
  intros Hwf H. unfold process in H. unfold bind at 1 in H.
  destruct (show_progress res s) as [r1 s1] eqn:H1.
  pose proof (show_progress_total _ _ _ _ Hwf H1) as Htot1.
  destruct (show_progress_spec _ _ _ _ Hwf H1) as (Hwf1 & _).
  apply show_progress_any in H1 as (_ & _ & _ & Hr1).
  destruct r1 as [[]|e1]; [|by simplify_eq].
  destruct Hr1 as (n & tid & t & Hn & Htid & Ht).
  unfold bind at 1 in H.
  destruct (report res s1) as [r2 s2] eqn:H2.
  apply report_spec in H2 as (Hp2 & _ & Hsc2 & Hpt2 & _).
  assert (Htot2 : overall_total s2 = overall_total s).
  { unfold overall_total in *. by rewrite Hp2. }
  destruct r2 as [[]|e2]; [|by simplify_eq].
  destruct (count_scanned_spec res s2 n tid t)
    as (s3 & H3 & _ & _ & _ & _ & _ & _ & Htasks);
    [congruence | congruence | by rewrite Hp2 |].
  rewrite H3 in H. simplify_eq. rewrite <- Htot2.
  pose proof (wf_prog_tasks _ _ _ Hwf1 _ _ Htid) as Hrange.
  unfold overall_total.
  destruct (decide (n + 1 = num_ips (cidr res))); destruct Htasks as [-> _];
    [|done].
  by rewrite lookup_delete_ne by lia.
Qed.

Lemma iteration_total item s s' :
  well_formed s ->
  iteration (Some item) s = (Ok Running, s') ->
  overall_total s' = overall_total s.
Proof.
  intros Hwf H. destruct item as [res|e].
  - rewrite iteration_of_try, try_block_result in H.
    destruct (process res s) as [r s1] eqn:Hp.
    pose proof (process_total _ _ _ _ Hwf Hp) as Htot.
    apply process_any in Hp as (_ & Hr).
    destruct r as [[]|e]; [by simplify_eq|].
    destruct Hr as [He _]. rewrite handler_unexpected in H by done.
    by simplify_eq.
  - by apply iteration_raise_running in H as [_ ->].
Qed.

Lemma running_after_total items :
  forall s s',
    well_formed s ->
    running_after items s = Some s' ->
    overall_total s' = overall_total s.
Proof.
  induction items as [|item items IH]; intros s s' Hwf H.
  - cbn in H. by simplify_eq.
  - cbn in H. destruct (iteration (Some item) s) as [[[]|] s1] eqn:Hi; try done.
    rewrite (IH s1 s'); [|by eapply iteration_well_formed|done].
    by eapply iteration_total.
Qed.

Lemma count_items_le f items : count_items f items <= length items.
Proof.
  induction items as [|item items IH]; [done|].
  rewrite count_items_cons. cbn [length]. destruct (f item); lia.
Qed.

(** The task of all subnets while the loop runs: its total is the sum
    announced at the start, its counter the number of results so far. *)
Lemma all_ips_task_while_running header cidr_list items s :
  running_after items (start_scan header cidr_list) = Some s ->
  exists t,
    _tasks (progress s) !! all_ips_task = Some t
    /\ task_total t
       = n_total_ips_of get_num_ips_in_cidr test_config cidr_list
    /\ task_completed t = count_items is_result items.
Proof.
  intros Hrun.
  pose proof (start_scan_well_formed header cidr_list) as Hwf0.
  pose proof (running_after_total _ _ _ Hwf0 Hrun) as Htot.
  destruct (scan_accounts _ _ _ Hwf0 Hrun) as (_ & Hov & _).
  unfold overall_total, overall in *.
  destruct (_tasks (progress s) !! all_ips_task) as [t|]; [|done].
  exists t. split; [done|]. cbn in Htot, Hov.
  rewrite lookup_insert_eq in Htot, Hov. cbn in Htot, Hov.
  split; congruence.
Qed.

(** ** Further facts: which results raise *)

Local Abbreviation tasks_on_display :=
  (tasks_on_display get_num_ips_in_cidr test_config).

(** The tasks that the display shows stay on it while [show_progress]
    runs. *)
Lemma show_progress_keeps_tasks res s r s' :
  show_progress res s = (r, s') ->
  forall id, is_Some (_tasks (progress s) !! id) ->
             is_Some (_tasks (progress s') !! id).
Proof.
  intros H id Hid. unfold show_progress in H. unfold bind at 1 in H.
  rewrite update_advance_eq in H.
  destruct (_tasks (progress s) !! all_ips_task) as [t0|]; [|by simplify_eq].
  set (s1 := emit (TaskAdvanced all_ips_task)
               (with_tasks <[all_ips_task:=advanced t0]> s)) in *.
  assert (H1 : is_Some (_tasks (progress s1) !! id)).
  { cbn. rewrite lookup_insert_is_Some. destruct (decide (all_ips_task = id)); by auto. }
  cbv [bind gets subscript ret raise modify] in H.
  change (cidr_scanned_ips s1) with (cidr_scanned_ips s) in H.
  destruct (cidr_scanned_ips s !! cidr res) as [n|] eqn:Hn; [|by simplify_eq].
  destruct (n =? 0).
  - unfold add_task in H.
    cbn [cidr_prog_tasks set_cidr_prog_tasks emit set_progress] in H.
    rewrite lookup_insert_eq in H. rewrite update_advance_eq in H.
    cbn [_tasks progress set_cidr_prog_tasks emit set_progress] in H.
    rewrite lookup_insert_eq in H. simplify_eq.
    cbn -[s1]. rewrite !lookup_insert_is_Some.
    destruct (decide (_task_index (progress s1) = id)); by auto.
  - change (cidr_prog_tasks s1) with (cidr_prog_tasks s) in H.
    destruct (cidr_prog_tasks s !! cidr res) as [tid|] eqn:Htid;
      [|by simplify_eq].
    rewrite update_advance_eq in H.
    destruct (_tasks (progress s1) !! tid) as [t|] eqn:Ht; [|by simplify_eq].
    simplify_eq. cbn -[s1]. rewrite lookup_insert_is_Some.
    destruct (decide (tid = id)); by auto.
Qed.

(** When [show_progress] goes through: the subnet has a counter, and
    when the counter is not 0 the task kept for the subnet is on
    display. *)
Lemma show_progress_ok_iff res s :
  well_formed s ->
  (show_progress res s).1 = Ok tt
  <-> exists n,
        cidr_scanned_ips s !! cidr res = Some n
        /\ (n <> 0 ->
            exists id, cidr_prog_tasks s !! cidr res = Some id
                       /\ is_Some (_tasks (progress s) !! id)).
Proof.
  intros Hwf. destruct (wf_all_ips _ _ _ Hwf) as (t0 & n0 & Ht0 & _).
  unfold show_progress. unfold bind at 1.
  rewrite update_advance_eq, Ht0.
  set (s1 := emit (TaskAdvanced all_ips_task)
               (with_tasks <[all_ips_task:=advanced t0]> s)) in *.
  cbv [bind gets subscript ret raise modify].
  change (cidr_scanned_ips s1) with (cidr_scanned_ips s).
  destruct (cidr_scanned_ips s !! cidr res) as [n|] eqn:Hn.
  2:{ split; [done|]. by intros (n & ? & _). }
  destruct (n =? 0) eqn:Hz.
  - apply Nat.eqb_eq in Hz. unfold add_task.
    cbn [cidr_prog_tasks set_cidr_prog_tasks emit set_progress].
    rewrite lookup_insert_eq. rewrite update_advance_eq.
    cbn [_tasks progress set_cidr_prog_tasks emit set_progress].
    rewrite lookup_insert_eq. split; [|done]. intros _. exists n. by split.
  - apply Nat.eqb_neq in Hz.
    change (cidr_prog_tasks s1) with (cidr_prog_tasks s).
    destruct (cidr_prog_tasks s !! cidr res) as [tid|] eqn:Htid.
    2:{ split; [done|]. intros (n' & ? & Hid). simplify_eq.
        by destruct (Hid Hz) as (? & ? & _). }
    pose proof (wf_prog_tasks _ _ _ Hwf _ _ Htid) as Hrange.
    rewrite update_advance_eq.
    change (_tasks (progress s1))
      with (<[all_ips_task:=advanced t0]> (_tasks (progress s))).
    rewrite lookup_insert_ne by lia.
    destruct (_tasks (progress s) !! tid) as [t|] eqn:Ht.
    + split; [|done]. intros _. exists n. split; [done|]. intros _.
      exists tid. by rewrite Ht.
    + split; [done|]. intros (n' & ? & Hid). simplify_eq.
      destruct (Hid Hz) as (id & ? & [? Hsome]). by simplify_eq.
Qed.

(** The [try] block goes through for a result exactly when
    [show_progress] and, after it, [report] do: the counting that
    follows raises nothing then. *)
Lemma process_ok_iff res s :
  (process res s).1 = Ok tt
  <-> (show_progress res s).1 = Ok tt
      /\ (report res (show_progress res s).2).1 = Ok tt.
Proof.
  unfold process. unfold bind at 1.
  destruct (show_progress res s) as [r1 s1] eqn:H1. cbn [fst snd].
  apply show_progress_any in H1 as (_ & _ & _ & Hr1).
  destruct r1 as [[]|e1]; [|by split; [|intros [? _]]].
  destruct Hr1 as (n & tid & t & Hn & Htid & Ht).
  unfold bind at 1.
  destruct (report res s1) as [r2 s2] eqn:H2. cbn [fst].
  apply report_spec in H2 as (Hp2 & _ & Hsc2 & Hpt2 & _).
  destruct r2 as [[]|e2].
  - destruct (count_scanned_spec res s2 n tid t) as (s3 & H3 & _);
      [congruence | congruence | by rewrite Hp2 |].
    by rewrite H3.
  - cbn. split; [done|]. by intros [_ ?].
Qed.

Lemma tasks_on_display_same s s' :
  (forall id, is_Some (_tasks (progress s) !! id) ->
              is_Some (_tasks (progress s') !! id)) ->
  cidr_scanned_ips s' = cidr_scanned_ips s ->
  (forall c n, cidr_scanned_ips s !! c = Some n -> n <> 0 ->
               cidr_prog_tasks s' !! c = cidr_prog_tasks s !! c) ->
  tasks_on_display s -> tasks_on_display s'.
Proof.
  intros Htasks Hsc Hpt Hinv c n Hn Hnz Hne. rewrite Hsc in Hn.
  destruct (Hinv c n Hn Hnz Hne) as (id & Hid & Hsome).
  exists id. rewrite (Hpt c n Hn Hnz). by auto.
Qed.

Lemma process_tasks_on_display res s r s' :
  well_formed s ->
  tasks_on_display s ->
  process res s = (r, s') ->
  tasks_on_display s'.
Proof.
  intros Hwf Hinv H. unfold process in H. unfold bind at 1 in H.
  destruct (show_progress res s) as [r1 s1] eqn:H1.
  pose proof (show_progress_keeps_tasks _ _ _ _ H1) as Hkeep1.
  destruct (show_progress_spec _ _ _ _ Hwf H1)
    as (Hwf1 & _ & Hsc1 & _ & _ & _ & _ & Hpt1 & _).
  assert (Hinv1 : tasks_on_display s1).
  { apply (tasks_on_display_same s); [done|done| |done].
    intros c n Hn Hnz. apply Hpt1.
    destruct (decide (c = cidr res)) as [->|]; [right|by left].
    rewrite Hn. by intros ?; simplify_eq. }
  apply show_progress_any in H1 as (_ & _ & _ & Hr1).
  destruct r1 as [[]|e1]; [|by simplify_eq].
  destruct Hr1 as (n & tid & t & Hn & Htid & Ht).
  unfold bind at 1 in H.
  destruct (report res s1) as [r2 s2] eqn:H2.
  apply report_spec in H2 as (Hp2 & Hpool2 & Hsc2 & Hpt2 & _).
  assert (Hinv2 : tasks_on_display s2).
  { apply (tasks_on_display_same s1); [by rewrite Hp2|done| |done].
    intros. by rewrite Hpt2. }
  destruct r2 as [[]|e2]; [|by simplify_eq].
  assert (Hwf2 : well_formed s2).
  { eapply (well_formed_same s1 s2); by rewrite ?Hp2. }
  destruct (count_scanned_spec res s2 n tid t)
    as (s3 & H3 & Hsc3 & _ & Hpt3 & _ & _ & _ & Htasks);
    [congruence | congruence | by rewrite Hp2 |].
  rewrite H3 in H. simplify_eq.
  intros c m Hm Hnz Hne. rewrite Hsc3 in Hm. rewrite Hpt3.
  destruct (decide (c = cidr res)) as [->|Hc].
  - rewrite lookup_insert_eq in Hm. simplify_eq.
    rewrite decide_False in Htasks by done. destruct Htasks as [-> _].
    exists tid. rewrite Hpt2, Hp2, Ht. by split; [|eexists].
  - rewrite lookup_insert_ne in Hm by done.
    destruct (Hinv2 c m Hm Hnz Hne) as (id & Hid & [tc Htc]).
    exists id. split; [done|].
    destruct (decide (n + 1 = num_ips (cidr res))); destruct Htasks as [-> _];
      [|by eexists].
    rewrite lookup_delete_ne; [by eexists|]. intros <-.
    assert (Htid2 : cidr_prog_tasks s2 !! cidr res = Some tid) by congruence.
    pose proof (wf_description _ _ _ Hwf2 _ _ _ Hid Htc) as Hd.
    pose proof (wf_description _ _ _ Hwf2 _ _ _ Htid2 Htc) as Hd'.
    rewrite Hd in Hd'. injection Hd' as Heq _. by apply Hc.
Qed.

Lemma iteration_tasks_on_display item s s' :
  well_formed s ->
  tasks_on_display s ->
  iteration (Some item) s = (Ok Running, s') ->
  tasks_on_display s'.
Proof.
  intros Hwf Hinv H. destruct item as [res|e].
  - rewrite iteration_of_try, try_block_result in H.
    destruct (process res s) as [r s1] eqn:Hp.
    pose proof (process_tasks_on_display _ _ _ _ Hwf Hinv Hp) as Hinv1.
    apply process_any in Hp as (_ & Hr).
    destruct r as [[]|e]; [by simplify_eq|].
    destruct Hr as [He _]. rewrite handler_unexpected in H by done.
    by simplify_eq.
  - by apply iteration_raise_running in H as [_ ->].
Qed.

Lemma running_after_tasks_on_display items :
  forall s s',
    well_formed s ->
    tasks_on_display s ->
    running_after items s = Some s' ->
    tasks_on_display s'.
Proof.
  induction items as [|item items IH]; intros s s' Hwf Hinv H.
  - cbn in H. by simplify_eq.
  - cbn in H. destruct (iteration (Some item) s) as [[[]|] s1] eqn:Hi; try done.
    apply (IH s1 s'); [by eapply iteration_well_formed| |done].
    by eapply iteration_tasks_on_display.
Qed.

Lemma start_scan_tasks_on_display header cidr_list :
  tasks_on_display (start_scan header cidr_list).
Proof.
  intros c n Hn Hnz. cbn in Hn. rewrite zero_counters_lookup in Hn.
  destruct (decide (c ∈ cidr_list)); by simplify_eq.
Qed.

(** X12.  At every point of the loop, the statements that bring the
    display up to date for a result go through exactly when the subnet
    of the result has a counter, and the counter is 0 or is not the
    number of addresses of the subnet.  Once they and the report of the
    result have gone through, the counting that follows raises nothing:
    the [try] block goes through exactly when these two groups of
    statements do. *)
Theorem only_display_and_report_raise header cidr_list items s res :
  running_after items (start_scan header cidr_list) = Some s ->
  ((show_progress res s).1 = Ok tt
   <-> exists n,
         cidr_scanned_ips s !! cidr res = Some n
         /\ (n = 0 \/ n <> num_ips (cidr res)))
  /\ ((try_block (Some (Ok res)) s).1 = Ok tt
      <-> (show_progress res s).1 = Ok tt
          /\ (report res (show_progress res s).2).1 = Ok tt).
Proof.
  intros Hrun. split; [|by rewrite try_block_result, process_ok_iff].
  pose proof (start_scan_well_formed header cidr_list) as Hwf0.
  pose proof (running_after_well_formed _ _ _ Hwf0 Hrun) as Hwf.
  pose proof (running_after_tasks_on_display _ _ _ Hwf0
                (start_scan_tasks_on_display header cidr_list) Hrun) as Hinv.
  rewrite (show_progress_ok_iff _ _ Hwf).
  split; intros (n & Hn & Hshown); exists n; (split; [done|]).
  - destruct (decide (n = 0)) as [|Hnz]; [by left|right]. intros Hdone.
    assert (Hpos : 0 < num_ips (cidr res)) by lia.
    destruct (running_after_block_inv (cidr res) items _ _ Hpos Hwf0
                (start_scan_block_inv _ header cidr_list Hpos) Hrun)
      as [_ Hblock].
    destruct (Hblock _ Hn) as (_ & _ & Hgone).
    destruct (Hgone Hdone) as (id & Hid & Hnone).
    destruct (Hshown Hnz) as (id' & Hid' & [t Ht]). by simplify_eq.
  - intros Hnz. destruct Hshown as [|Hne]; [done|]. by eapply Hinv.
Qed.

(** ** The start error of the proxy service *)

Lemma fatal_error_aborts msg rest s :
  scan_loop (Raise (StartProxyServiceError msg) :: rest) s =
    (Ok Aborted,
     emit (LoggingException (StartProxyServiceError msg))
       (pool_terminate
          (emit (ConsoleLog ("[red]" +:+ msg +:+ "[/red]"))
             (progress_stop s).2)).2).
Proof. done. Qed.

End ScannerFacts.

(** ** The iterator of the pool hands results over in the order of submission *)

Section IteratorFacts.
Context {A : Type}.
Variable results : list A.
Import IMapIterator.

Local Abbreviation in_order := (in_order results).
Local Abbreviation none_lost := (none_lost results).

Lemma flush_in_order rounds :
  forall (it : t A) handed,
    in_order it handed -> in_order (flush rounds it) handed.
Proof.
  induction rounds as [|rounds IH]; intros it handed Hin; [done|].
  cbn. destruct (_unsorted it !! _index it) as [obj|] eqn:Hobj; [|done].
  apply IH. destruct Hin as (Hitems & Hle & Hun).
  pose proof (Hun _ _ Hobj) as Hres.
  split; [|split]; cbn.
  - rewrite (take_S_r _ _ _ Hres), <- Hitems. by rewrite (assoc_L (++)).
  - by apply lookup_lt_Some in Hres.
  - intros i x Hi. apply lookup_delete_Some in Hi as [_ Hi]. by eapply Hun.
Qed.

Lemma flush_kept rounds :
  forall (it : t A) i,
    i < _index it \/ is_Some (_unsorted it !! i) ->
    i < _index (flush rounds it) \/ is_Some (_unsorted (flush rounds it) !! i).
Proof.
  induction rounds as [|rounds IH]; intros it i Hi; [done|].
  cbn. destruct (_unsorted it !! _index it) as [obj|] eqn:Hobj; [|done].
  apply IH. cbn. destruct Hi as [Hi|Hi]; [left; lia|].
  destruct (decide (i = _index it)) as [->|Hne]; [left; lia|].
  right. by rewrite lookup_delete_ne.
Qed.

Lemma flush_ends rounds :
  forall it : t A,
    size (_unsorted it) <= rounds ->
    _unsorted (flush rounds it) !! _index (flush rounds it) = None.
Proof.
  induction rounds as [|rounds IH]; intros it Hsize.
  - cbn. apply Nat.le_0_r, map_size_empty_inv in Hsize.
    rewrite Hsize. apply lookup_empty.
  - cbn. destruct (_unsorted it !! _index it) as [obj|] eqn:Hobj; [|done].
    apply IH. cbn. rewrite map_size_delete, Hobj. lia.
Qed.

Lemma flush_length rounds :
  forall it : t A, _length (flush rounds it) = _length it.
Proof.
  induction rounds as [|rounds IH]; intros it; [done|].
  cbn. destruct (_unsorted it !! _index it); [|done]. by rewrite IH.
Qed.

Lemma set_in_order i obj it handed :
  results !! i = Some obj ->
  in_order it handed -> in_order (_set i obj it) handed.
Proof.
  intros Hres (Hitems & Hle & Hun). unfold _set.
  destruct (decide (_index it = i)) as [<-|Hne].
  - apply flush_in_order. split; [|split]; cbn.
    + rewrite (take_S_r _ _ _ Hres), <- Hitems. by rewrite (assoc_L (++)).
    + by apply lookup_lt_Some in Hres.
    + done.
  - split; [done|]. split; [done|]. cbn. intros j x Hj.
    apply lookup_insert_Some in Hj as [[<- <-]|[_ Hj]]; [done|by eapply Hun].
Qed.

Lemma set_none_lost i obj it arrived :
  none_lost it arrived -> none_lost (_set i obj it) (arrived ++ [i]).
Proof.
  intros [Hend Hkept]. unfold _set.
  destruct (decide (_index it = i)) as [<-|Hne].
  - split; [by apply flush_ends|].
    intros j Hj Hlt. apply flush_kept. cbn.
    apply elem_of_app in Hj as [Hj|Hj].
    + destruct (Hkept j Hj Hlt) as [?|?]; [left; lia|by right].
    + apply list_elem_of_singleton in Hj as ->. left. lia.
  - split; cbn.
    + by rewrite lookup_insert_ne.
    + intros j Hj Hlt. apply elem_of_app in Hj as [Hj|Hj].
      * destruct (Hkept j Hj Hlt) as [?|[x Hx]]; [by left|right].
        destruct (decide (i = j)) as [->|?].
        -- by rewrite lookup_insert_eq.
        -- rewrite lookup_insert_ne by done. by eauto.
      * apply list_elem_of_singleton in Hj as ->. right.
        by rewrite lookup_insert_eq.
Qed.

Lemma play_in_order events :
  forall it handed,
    in_order it handed ->
    in_order (play results events it handed).1
             (play results events it handed).2.
Proof.
  induction events as [|[i| |] events IH]; intros it handed Hin; cbn.
  - done.
  - destruct (results !! i) as [obj|] eqn:Hres; apply IH; [|done].
    by apply set_in_order.
  - apply IH. by destruct Hin.
  - unfold next. destruct (_items it) as [|x rest] eqn:Hitems.
    + case_decide; by apply IH.
    + apply IH. destruct Hin as (Hh & Hle & Hun). split; [|done]. cbn.
      by rewrite <- (assoc_L (++)), <- Hh, Hitems.
Qed.

(** The arrivals alone: nothing is handed over, and nothing is lost. *)
Lemma play_arrivals order :
  forall events it arrived,
    in_order it [] ->
    none_lost it arrived ->
    exists it',
      play results ((Arrives <$> order) ++ events) it [] =
        play results events it' []
      /\ in_order it' []
      /\ none_lost it' (arrived ++ order)
      /\ _length it' = _length it.
Proof.
  induction order as [|i order IH]; intros events it arrived Hin Hlost.
  - exists it. by rewrite (right_id_L [] (++)).
  - cbn. destruct (results !! i) as [obj|] eqn:Hres.
    + destruct (IH events (_set i obj it) (arrived ++ [i]))
        as (it' & Hplay & Hin' & Hlost' & Hlen);
        [by apply set_in_order | by apply set_none_lost |].
      exists it'. rewrite <- (assoc_L (++)) in Hlost'.
      do 3 (split; [done|]). rewrite Hlen. unfold _set.
      case_decide; [|done]. by rewrite flush_length.
    + destruct (IH events it arrived) as (it' & Hplay & Hin' & Hlost' & Hlen);
        [done|done|].
      exists it'. do 2 (split; [done|]). split; [|done].
      destruct Hlost' as [Hend Hkept]. split; [done|].
      intros j Hj Hlt. apply Hkept; [|done].
      apply elem_of_app in Hj as [Hj|Hj]; apply elem_of_app; [by left|].
      apply elem_of_cons in Hj as [->|Hj]; [|by right].
      apply lookup_ge_None in Hres. lia.
Qed.

(** The loop takes what is ready, one item at a time. *)
Lemma play_takes_items items :
  forall it handed,
    _items it = items ->
    (play results (replicate (length items) Next) it handed).2 =
      handed ++ items.
Proof.
  induction items as [|x items IH]; intros it handed Hitems; cbn.
  - by rewrite (right_id_L [] (++)).
  - unfold next. rewrite Hitems. rewrite IH by done.
    by rewrite <- (assoc_L (++)).
Qed.

End IteratorFacts.

(** ** The claims about the whole script *)


(** C3.  Whatever the order in which the results of the jobs arrive, and
    however the arrivals are interleaved with the loop asking for the
    next item, the items handed to the loop are the results of the jobs
    in the order of submission, as far as they go; once all have arrived
    and the loop has asked as often as there are jobs, it has been handed
    all of them in that order.  The loop deals with them one after the
    other: the state in which it takes up an item is the state in which
    it left the item before. *)
Theorem results_consumed_in_submission_order
    str_num get_num_ips_in_cidr test_config cidr_to_ip_list test_ip
    cidr_list :
  let results :=
    imap_results test_ip (big_ip_list test_config cidr_to_ip_list cidr_list) in
  (forall events,
     (IMapIterator.play results events IMapIterator.new []).2
       `prefix_of` results)
  /\ (forall order,
        order ≡ₚ seq 0 (length results) ->
        (IMapIterator.play results
           ((IMapIterator.Arrives <$> order)
            ++ IMapIterator.AllSubmitted
               :: replicate (length results) IMapIterator.Next)
           IMapIterator.new []).2 = results)
  /\ (forall items1 items2 s,
        running_after str_num get_num_ips_in_cidr test_config
          (items1 ++ items2) s =
        running_after str_num get_num_ips_in_cidr test_config items1 s
          ≫= running_after str_num get_num_ips_in_cidr test_config items2).
Proof.
  intros results.
  assert (Hnew : IMapIterator.in_order results IMapIterator.new []).
  { split; [done|]. split; [cbn; lia|]. intros i x Hi. cbn in Hi.
    by rewrite lookup_empty in Hi. }
  split; [|split].
  - intros events.
    destruct (play_in_order results events _ _ Hnew) as (Hh & _).
    exists (IMapIterator._items
              (IMapIterator.play results events IMapIterator.new []).1
            ++ drop (IMapIterator._index
                       (IMapIterator.play results events IMapIterator.new []).1)
                 results).
    by rewrite (assoc_L (++)), Hh, take_drop.
  - intros order Horder.
    destruct (play_arrivals results order
                (IMapIterator.AllSubmitted
                 :: replicate (length results) IMapIterator.Next)
                IMapIterator.new [] Hnew)
      as (it & -> & (Hitems & Hle & _) & (Hend & Hkept) & _).
    { split; [done|]. intros i Hi. by apply elem_of_nil in Hi. }
    assert (Hidx : IMapIterator._index it = length results).
    { destruct (decide (IMapIterator._index it = length results)); [done|].
      destruct (Hkept (IMapIterator._index it)) as [?|[x Hx]]; [|lia|lia|].
      - rewrite Horder. apply elem_of_seq. lia.
      - by rewrite Hend in Hx. }
    rewrite Hidx, firstn_all in Hitems. cbn in Hitems.
    cbn [IMapIterator.play]. rewrite <- Hitems at 1.
    by rewrite play_takes_items.
  - intros. apply running_after_app.
Qed.

(** ** Further facts: the header *)

Lemma NoDup_numbered name n : NoDup (numbered name n).
Proof.
  unfold numbered. apply NoDup_fmap_2; [|apply NoDup_seq].
  intros i j H. apply (inj (String.app name)) in H.
  injection H as H. apply pretty_nat_inj in H. lia.
Qed.

(** X9.  The header has seven columns and four for every try, and no
    two of them have the same title. *)
Theorem header_titles_are_distinct n :
  length (titles n) = 7 + 4 * n /\ NoDup (titles n).
Proof.
  split.
  { unfold titles. rewrite !length_app, !length_numbered. cbn. lia. }
  unfold titles.
  repeat (apply NoDup_app; split; [|split]); try apply NoDup_numbered.
  - apply (bool_decide_unpack _). vm_compute. reflexivity.
  - intros title Hin Hin'. rewrite !elem_of_app in Hin'.
    destruct Hin' as [Hin'|[Hin'|[Hin'|Hin']]];
      apply elem_of_numbered in Hin' as [i ->];
      repeat (apply elem_of_cons in Hin as [Hin|Hin]; [discriminate Hin|]);
      by apply elem_of_nil in Hin.
  - intros title [i ->]%elem_of_numbered Hin'. rewrite !elem_of_app in Hin'.
    destruct Hin' as [Hin'|[Hin'|Hin']];
      apply elem_of_numbered in Hin' as [j Hj]; discriminate Hj.
  - intros title [i ->]%elem_of_numbered Hin'. rewrite !elem_of_app in Hin'.
    destruct Hin' as [Hin'|Hin'];
      apply elem_of_numbered in Hin' as [j Hj]; discriminate Hj.
  - intros title [i ->]%elem_of_numbered [j Hj]%elem_of_numbered.
    discriminate Hj.
Qed.

(** ** Further facts: the candidates *)

Lemma big_ip_list_bind test_config cidr_to_ip_list cidr_list :
  big_ip_list test_config cidr_to_ip_list cidr_list
  = cidr_list ≫= (fun c =>
      (fun ip_ => (ip_, c)) <$> cidr_to_ip_list c (sample_size test_config)).
Proof.
  unfold big_ip_list. induction cidr_list as [|c cidr_list IH]; [done|].
  cbn [fmap list_fmap zip zip_with]. rewrite !bind_cons. by rewrite <- IH.
Qed.

Lemma big_ip_list_length test_config cidr_to_ip_list cidr_list :
  length (big_ip_list test_config cidr_to_ip_list cidr_list)
  = sum_list ((fun c => length (cidr_to_ip_list c (sample_size test_config)))
                <$> cidr_list).
Proof.
  rewrite big_ip_list_bind.
  induction cidr_list as [|c cidr_list IH]; [done|].
  rewrite bind_cons, length_app, length_fmap, IH. done.
Qed.

(** X10.  The candidates are the addresses of the subnets, each with its
    subnet, in the order of the subnets in [cidr_list] and, within a
    subnet, in the order of its addresses: pairing the subnets with the
    lists computed for them loses and adds nothing.  A subnet that is
    listed twice has its addresses twice. *)
Theorem candidates_follow_the_subnets test_config cidr_to_ip_list :
  let ips := fun c => cidr_to_ip_list c (sample_size test_config) in
  let big_ip_list := big_ip_list test_config cidr_to_ip_list in
  (forall cidr_list ip_ c,
     (ip_, c) ∈ big_ip_list cidr_list <-> c ∈ cidr_list /\ ip_ ∈ ips c)
  /\ (forall cidr_list,
        length (big_ip_list cidr_list) = sum_list (length ∘ ips <$> cidr_list))
  /\ (forall c, big_ip_list [c] = (fun ip_ => (ip_, c)) <$> ips c)
  /\ (forall cidr_list1 cidr_list2,
        big_ip_list (cidr_list1 ++ cidr_list2)
        = big_ip_list cidr_list1 ++ big_ip_list cidr_list2).
Proof.
  intros ips big. subst ips big. split; [|split; [|split]].
  - intros cidr_list ip_ c. rewrite big_ip_list_bind, list_elem_of_bind.
    split.
    + intros (c' & Hin & Hc'). apply list_elem_of_fmap in Hin as (? & ? & ?).
      by simplify_eq.
    + intros [Hc Hip]. exists c. split; [|done].
      apply list_elem_of_fmap. by exists ip_.
  - intros cidr_list. apply big_ip_list_length.
  - intros c. rewrite big_ip_list_bind, bind_cons. cbn.
    by rewrite (right_id_L [] (++)).
  - intros l1 l2. by rewrite !big_ip_list_bind, bind_app.
Qed.

(** X11.  When [cidr_to_ip_list] gives as many addresses of a subnet as
    [get_num_ips_in_cidr] says, the total of the task of all subnets is
    the number of jobs given to the pool, at every point of the loop;
    the counter of the task is the number of results handed over so far
    and never exceeds the total. *)
Theorem progress_total_is_number_of_jobs
    str_num get_num_ips_in_cidr test_config cidr_to_ip_list test_ip
    header cidr_list i s :
  (forall c, c ∈ cidr_list ->
     length (cidr_to_ip_list c (sample_size test_config))
     = get_num_ips_in_cidr c (sample_size test_config)) ->
  let items :=
    imap_results test_ip (big_ip_list test_config cidr_to_ip_list cidr_list) in
  running_after str_num get_num_ips_in_cidr test_config (take i items)
    (start_scan get_num_ips_in_cidr test_config header cidr_list) = Some s ->
  n_total_ips_of get_num_ips_in_cidr test_config cidr_list = length items
  /\ exists t,
       _tasks (progress s) !! all_ips_task = Some t
       /\ task_total t = length items
       /\ task_completed t = count_items is_result (take i items)
       /\ task_completed t <= task_total t.
Proof.
  intros Hlen items Hrun.
  assert (Htotal : n_total_ips_of get_num_ips_in_cidr test_config cidr_list
                   = length items).
  { unfold items, imap_results, n_total_ips_of, num_ips.
    rewrite length_fmap, big_ip_list_length. f_equal.
    apply list_eq. intros j. rewrite !list_lookup_fmap.
    destruct (cidr_list !! j) as [c|] eqn:Hc; [|done]. cbn. f_equal.
    symmetry. apply Hlen. by eapply list_elem_of_lookup_2. }
  split; [done|].
  destruct (all_ips_task_while_running _ _ _ _ _ _ _ Hrun)
    as (t & Ht & Htot & Hdone).
  exists t. split; [done|]. split; [congruence|]. split; [done|].
  rewrite Hdone, Htot, Htotal.
  pose proof (count_items_le is_result (take i items)) as Hle.
  rewrite length_take in Hle. lia.
Qed.

(** ** The claims on the small scan *)

Import Example.

Lemma trials_lookup a b key l :
  trials a b !! key = Some l -> l = a \/ l = b.
Proof.
  unfold trials. intros Hl.
  apply lookup_insert_Some in Hl as [[_ <-]|[_ Hl]]; [by left|].
  apply lookup_insert_Some in Hl as [[_ <-]|[_ Hl]]; [by right|].
  by rewrite lookup_empty in Hl.
Qed.

Lemma measured_trial_set address :
  trial_set_of_probe test_config (measured address).
Proof.
  intros direction d key l Hd Hl. cbn in Hd.
  apply lookup_insert_Some in Hd as [[_ <-]|[_ Hd]].
  { by apply trials_lookup in Hl as [-> | ->]. }
  apply lookup_insert_Some in Hd as [[_ <-]|[_ Hd]].
  { by apply trials_lookup in Hl as [-> | ->]. }
  by rewrite lookup_empty in Hd.
Qed.





(** C4 on a scan of the two addresses of the subnet. *)
Lemma subnet_task_life_witness :
  exists s,
    Example.running_after
      [Ok (measured "10.0.0.7"); Ok (failed "10.0.0.9")] start = Some s
    /\ cidr_scanned_ips s !! subnet = Some 2
    /\ 2 <= num_ips get_num_ips_in_cidr test_config subnet
    /\ removals subnet s = 1.
Proof.
  eexists. split; [vm_compute; reflexivity|]. split; [vm_compute; reflexivity|].
  refine (let H := subnet_task_life str_num get_num_ips_in_cidr test_config
                     (header_line 2) [subnet]
                     [Ok (measured "10.0.0.7"); Ok (failed "10.0.0.9")]
                     _ subnet 2 _ _ _ in
          conj (proj1 H) (proj1 (proj2 H))).
  - cbn. lia.
  - vm_compute. reflexivity.
  - vm_compute. reflexivity.
Defined.

(** C4 as stated fails.  The block of the first of the two results of
    the subnet raises after the task of the subnet was added: the counter
    stays at 0, so the second result adds a second task; the counter ends
    at 1 and never is 2, so the loop removes no task of the subnet; the
    two tasks go when the end of the iterator clears the display. *)
Lemma subnet_task_added_twice_and_left_to_the_end :
  let items := [Ok (without_upload "10.0.0.7"); Ok (measured "10.0.0.9")] in
  num_ips get_num_ips_in_cidr test_config subnet = 2
  /\ (creations subnet <$> Example.running_after items start) = Some 2
  /\ ((fun s => cidr_scanned_ips s !! subnet)
        <$> Example.running_after [Ok (without_upload "10.0.0.7")] start)
     = Some (Some 0)
  /\ ((fun s => cidr_scanned_ips s !! subnet)
        <$> Example.running_after items start) = Some (Some 1)
  /\ (removals subnet <$> Example.running_after items start) = Some 0
  /\ (Example.scan_loop items start).1 = Ok Completed
  /\ removals subnet (Example.scan_loop items start).2 = 2.
Proof. repeat split; vm_compute; reflexivity. Qed.

(** C5 fails on the start error of the proxy service: the two tasks on
    display are neither stopped nor removed, only the display is. *)
Lemma fatal_abort_leaves_tasks_on_display :
  let r :=
    Example.scan_loop
      [Ok (measured "10.0.0.7"); Raise (StartProxyServiceError "xray")]
      start in
  r.1 = Ok Aborted
  /\ _tasks (progress r.2) !! all_ips_task
     = Some (mkTask (AllSubnets 2) 2 1 false)
  /\ _tasks (progress r.2) !! 1 = Some (mkTask (Subnet subnet 2) 2 1 false)
  /\ live_started (progress r.2) = false
  /\ count_effects
       (fun e => match e with
                 | TaskStopped _ | TaskRemoved _ _ => true
                 | _ => false
                 end) (trace r.2) = 0.
Proof. repeat split; vm_compute; reflexivity. Qed.

(** C7 on a scan of two candidates, one successful and one not. *)
Lemma counters_reach_k_without_errors_witness :
  exists s,
    Example.running_after
      [Ok (measured "10.0.0.7"); Ok (failed "10.0.0.9")] start = Some s
    /\ sum_scanned s = 2
    /\ overall s = Some 2.
Proof.
  eexists. split; [vm_compute; reflexivity|].
  refine (let H := counters_reach_k_without_errors str_num
                     get_num_ips_in_cidr test_config (header_line 2) [subnet]
                     [Ok (measured "10.0.0.7"); Ok (failed "10.0.0.9")]
                     _ _ _ in
          conj (proj1 H) (proj1 (proj2 H))).
  - vm_compute. reflexivity.
  - vm_compute. reflexivity.
Defined.

(** C7 as stated fails: in a scan of two candidates without a start
    error, the worker of the first raises something else; the scan goes
    on to its end, and both counters stop at 1. *)
Lemma counters_fall_short_after_unknown_error :
  let items := [Raise (OtherException "OSError"); Ok (measured "10.0.0.9")] in
  (Example.scan_loop items start).1 = Ok Completed
  /\ ~ ((sum_scanned <$> Example.running_after items start)
          = Some (length items)
        /\ (overall <$> Example.running_after items start)
          = Some (Some (length items)))
  /\ (sum_scanned <$> Example.running_after items start) = Some 1
  /\ (overall <$> Example.running_after items start) = Some (Some 1).
Proof.
  split; [vm_compute; reflexivity|]. split; [|split; vm_compute; reflexivity].
  intros [H _]. vm_compute in H. discriminate H.
Qed.

(** C8 as stated fails: a successful result without an upload entry
    raises [KeyError] where its line is put together, and no line is
    written for it.  So does the second successful result of a subnet
    that is listed twice with one address to scan: the task of the
    subnet was removed after the first, and advancing it raises
    [KeyError] before the result is looked at. *)
Lemma successful_result_not_written :
  (is_ok (without_upload "10.0.0.7") = true
   /\ (Example.iteration (Some (Ok (without_upload "10.0.0.7"))) start).1
      = Ok Running
   /\ outfile
        (Example.iteration (Some (Ok (without_upload "10.0.0.7"))) start).2
      = outfile start
   /\ LoggingException (KeyError "upload")
      ∈ trace (Example.iteration
                 (Some (Ok (without_upload "10.0.0.7"))) start).2)
  /\ (is_ok (measured "10.0.0.7") = true
      /\ ((fun s => length (outfile s))
            <$> running_twice
                  [Ok (measured "10.0.0.7"); Ok (measured "10.0.0.7")])
         = Some (length (outfile start_twice) + 1)).
Proof.
  split.
  - split; [reflexivity|]. split; [vm_compute; reflexivity|].
    split; [vm_compute; reflexivity|]. vm_compute. by left.
  - split; [reflexivity|]. vm_compute. reflexivity.
Qed.

(** C9 on an exception that the worker raised. *)
Lemma unexpected_error_continues_witness :
  unexpected (OtherException "OSError") = true
  /\ Example.iteration (Some (Raise (OtherException "OSError"))) start
     = (Ok Running,
        emit (LoggingException (OtherException "OSError"))
          (emit (ConsolePrintException (OtherException "OSError"))
             (emit (ProgressLog "[red]Unknown error![/red]") start))).
Proof.
  refine (let H := unexpected_error_continues str_num get_num_ips_in_cidr
                     test_config (Raise (OtherException "OSError")) start
                     (OtherException "OSError") start [] _ _ in
          conj (proj1 H) (proj1 (proj2 H))).
  - reflexivity.
  - reflexivity.
Defined.

(** C9 as stated fails on a [StopIteration] that a worker raises for
    the first of two candidates.  It is neither the start error nor an
    interrupt; [next(iterator)] raises it again, and the loop takes it
    for the end of the results: nothing is logged, the scan ends as
    completed, and the second candidate is never looked at. *)
Lemma worker_stop_iteration_ends_scan :
  let items := [Raise StopIteration; Ok (measured "10.0.0.9")] in
  (Example.iteration (Some (Raise StopIteration)) start).1 = Ok Completed
  /\ Example.running_after items start = None
  /\ (Example.scan_loop items start).1 = Ok Completed
  /\ unknown_errors (Example.scan_loop items start).2 = 0
  /\ count_effects
       (fun e => match e with LoggingException _ => true | _ => false end)
       (trace (Example.scan_loop items start).2) = 0
  /\ outfile (Example.scan_loop items start).2 = outfile start.
Proof. repeat split; vm_compute; reflexivity. Qed.

(** C10 on the result after a first one. *)
Lemma overall_counter_advances_first_witness :
  exists s,
    Example.running_after [Ok (measured "10.0.0.7")] start = Some s
    /\ overall s = Some 1
    /\ overall
         (Example.iteration (Some (Ok (without_upload "10.0.0.9"))) s).2
       = S <$> overall s.
Proof.
  eexists. split; [vm_compute; reflexivity|]. split; [vm_compute; reflexivity|].
  refine (proj1 (proj2
            (overall_counter_advances_first str_num get_num_ips_in_cidr
               test_config (header_line 2) [subnet]
               [Ok (measured "10.0.0.7")] _ (without_upload "10.0.0.9") _))).
  vm_compute. reflexivity.
Defined.

(** ** The further facts on the small scan *)

(** X3 after the first result of the subnet. *)
Lemma scanned_keys_are_the_subnets_witness :
  exists s,
    Example.running_after [Ok (measured "10.0.0.7")] start = Some s
    /\ (is_Some (cidr_scanned_ips s !! subnet) <-> subnet ∈ [subnet]).
Proof.
  eexists. split; [vm_compute; reflexivity|].
  apply (scanned_keys_are_the_subnets str_num get_num_ips_in_cidr test_config
           (header_line 2) [subnet] [Ok (measured "10.0.0.7")]).
  vm_compute. reflexivity.
Defined.

(** X4 on a result of a subnet that was not read from the file. *)
Lemma result_of_unlisted_subnet_witness :
  exists s s1,
    Example.running_after [Ok (measured "10.0.0.7")] start = Some s
    /\ try_block str_num get_num_ips_in_cidr test_config
         (Some (Ok (stray "10.9.9.9"))) s
       = (Raise (KeyError "10.9.9.0/24"), s1)
    /\ overall s1 = Some 2
    /\ outfile s1 = outfile s.
Proof.
  assert (Hrun : { s | Example.running_after [Ok (measured "10.0.0.7")] start
                       = Some s /\ overall s = Some 1 }).
  { eexists. split; vm_compute; reflexivity. }
  destruct Hrun as (s & Hrun & Hov).
  destruct (result_of_unlisted_subnet str_num get_num_ips_in_cidr test_config
              (header_line 2) [subnet] [Ok (measured "10.0.0.7")] s
              (stray "10.9.9.9"))
    as (s1 & Htry & _ & Hov1 & Hout & _).
  - exact Hrun.
  - intros Hin. apply list_elem_of_singleton in Hin. discriminate Hin.
  - exists s, s1. split; [exact Hrun|]. split; [exact Htry|].
    split; [by rewrite Hov1, Hov|exact Hout].
Defined.

(** X5 on the second result of a subnet that is listed twice, with one
    address to scan. *)
Lemma result_after_subnet_is_done_witness :
  exists s id s1,
    running_twice [Ok (measured "10.0.0.7")] = Some s
    /\ cidr_prog_tasks s !! subnet = Some id
    /\ try_block str_num get_num_ips_in_cidr narrow_config
         (Some (Ok (measured "10.0.0.7"))) s
       = (Raise (KeyError (pretty id)), s1)
    /\ outfile s1 = outfile s.
Proof.
  assert (Hrun : { s | running_twice [Ok (measured "10.0.0.7")] = Some s
                       /\ cidr_scanned_ips s !! subnet = Some 1 }).
  { eexists. split; vm_compute; reflexivity. }
  destruct Hrun as (s & Hrun & Hn).
  destruct (result_after_subnet_is_done str_num get_num_ips_in_cidr
              narrow_config (header_line 2) [subnet; subnet]
              [Ok (measured "10.0.0.7")] s (measured "10.0.0.7"))
    as (id & s1 & Hid & Htry & _ & _ & Hout & _).
  - cbn. lia.
  - exact Hrun.
  - exact Hn.
  - exists s, id, s1. by repeat split.
Defined.

(** X6 on a scan in which the worker of the first candidate raised. *)
Lemma every_item_counted_or_reported_witness :
  exists s,
    Example.running_after
      [Raise (OtherException "OSError"); Ok (measured "10.0.0.9")] start
    = Some s
    /\ sum_scanned s + unknown_errors s = 2
    /\ overall s = Some 1.
Proof.
  eexists. split; [vm_compute; reflexivity|].
  refine (let H := every_item_counted_or_reported str_num
                     get_num_ips_in_cidr test_config (header_line 2) [subnet]
                     [Raise (OtherException "OSError");
                      Ok (measured "10.0.0.9")] _ _ in
          conj (proj1 H) (proj1 (proj2 H))).
  vm_compute. reflexivity.
Defined.

(** X7 on a scan of a result and an exception of the worker. *)
Lemma end_of_iterator_completes_scan_witness :
  exists s',
    Example.scan_loop
      [Ok (measured "10.0.0.7"); Raise (OtherException "OSError")] start
    = (Ok Completed, s')
    /\ _tasks (progress s') = ∅
    /\ pool_terminated s' = false.
Proof.
  destruct (end_of_iterator_completes_scan str_num get_num_ips_in_cidr
              test_config
              [Ok (measured "10.0.0.7"); Raise (OtherException "OSError")]
              start)
    as (s1 & s' & new & _ & Hloop & _ & _ & Htasks & _ & Hpool & _).
  - reflexivity.
  - exists s'. split; [exact Hloop|]. split; [exact Htasks|exact Hpool].
Defined.

(** X8 on a successful result with two trials. *)
Lemma written_line_cells_witness :
  exists s' down_speed,
    write_result str_num test_config (measured "10.0.0.7") start = (Ok tt, s')
    /\ result (measured "10.0.0.7") !! "download" ≫= (.!! "speed")
       = Some down_speed
    /\ down_speed <> []
    /\ trace s' = Rprint "OK" :: trace start.
Proof.
  assert (Hw : { s' | write_result str_num test_config (measured "10.0.0.7")
                        start = (Ok tt, s') }).
  { eexists. vm_compute. reflexivity. }
  destruct Hw as (s' & Hw).
  destruct (written_line_cells str_num test_config (measured "10.0.0.7")
              start s' Hw)
    as (down & up & ds & us & dl & ul & mds & mus & mdl & mul & jd & ju
        & Hd & Hds & _ & _ & _ & _ & Hne & _ & _ & _ & _ & _ & _ & Htr).
  exists s', ds. split; [exact Hw|]. split; [by rewrite Hd|].
  split; [exact Hne|exact Htr].
Defined.

(** X11 after the first of the two candidates of the subnet. *)
Lemma progress_total_is_number_of_jobs_witness :
  exists s t,
    Example.running_after
      (take 1 (imap_results test_ip
                 (big_ip_list test_config cidr_to_ip_list [subnet]))) start
    = Some s
    /\ _tasks (progress s) !! all_ips_task = Some t
    /\ task_total t = 2
    /\ task_completed t <= task_total t.
Proof.
  assert (Hrun : { s | Example.running_after
                         (take 1 (imap_results test_ip
                            (big_ip_list test_config cidr_to_ip_list
                               [subnet]))) start = Some s }).
  { eexists. vm_compute. reflexivity. }
  destruct Hrun as (s & Hrun).
  destruct (progress_total_is_number_of_jobs str_num get_num_ips_in_cidr
              test_config cidr_to_ip_list test_ip (header_line 2) [subnet]
              1 s)
    as (_ & t & Ht & Htot & _ & Hle).
  - intros c _. reflexivity.
  - exact Hrun.
  - exists s, t. split; [exact Hrun|]. split; [exact Ht|].
    split; [exact Htot|exact Hle].
Defined.

(** X12 on a result that did not succeed, after the first result of the
    subnet. *)
Lemma only_display_and_report_raise_witness :
  exists s,
    Example.running_after [Ok (measured "10.0.0.7")] start = Some s
    /\ (show_progress get_num_ips_in_cidr test_config
          (failed "10.0.0.9") s).1 = Ok tt
    /\ (try_block str_num get_num_ips_in_cidr test_config
          (Some (Ok (failed "10.0.0.9"))) s).1 = Ok tt.
Proof.
  assert (Hrun : { s | Example.running_after [Ok (measured "10.0.0.7")] start
                       = Some s
                       /\ cidr_scanned_ips s !! subnet = Some 1
                       /\ (report str_num test_config (failed "10.0.0.9")
                             (show_progress get_num_ips_in_cidr test_config
                                (failed "10.0.0.9") s).2).1 = Ok tt }).
  { eexists. split; [vm_compute; reflexivity|].
    split; vm_compute; reflexivity. }
  destruct Hrun as (s & Hrun & Hn & Hreport).
  destruct (only_display_and_report_raise str_num get_num_ips_in_cidr
              test_config (header_line 2) [subnet]
              [Ok (measured "10.0.0.7")] s (failed "10.0.0.9") Hrun)
    as [Hshow Hblock].
  assert (Hshown : (show_progress get_num_ips_in_cidr test_config
                      (failed "10.0.0.9") s).1 = Ok tt).
  { apply Hshow. exists 1. split; [exact Hn|]. right. cbn. lia. }
  exists s. split; [exact Hrun|]. split; [exact Hshown|].
  apply Hblock. by split.
Defined.
